(** * franka_ros_interface: controller arbiter and Cartesian impedance law

    A shallow embedding of

    - [franka_interface/src/motion_controller_interface.cpp]
      (class [MotionControllerInterface], module [Arbiter] below), and
    - [franka_ros_controllers/src/cartesian_impedance_controller.cpp]
      (class [CartesianImpedanceController], module [Impedance] below).

    Conventions.
    - [int] is [Z]; [std::string] is [string]; [std::vector<std::string>]
      is [list string], [push_back] appends at the end and [v[i]] outside
      the vector is undefined behaviour, modelled by the outcome [Fault].
    - [std::map<std::string,int>] is [gmap string Z]; [operator[]] inserts
      a value-initialised entry when the key is absent.
    - [ros::Time] and [ros::Duration] are integers counting nanoseconds.
    - The controller manager and the ROS log are external: every call of
      [controller_manager_->switchController] and every log line is
      recorded, in order, in the field [trace] of the state, and the
      answer of the k-th switch request is given by an arbitrary sequence
      of booleans.
    - [double] is modelled by the real numbers [R]: exact arithmetic,
      no rounding, no NaN, no signed zero. *)

From Stdlib Require Import ZArith List String Reals Lra Lia.
From stdpp Require Import base option list gmap strings pretty.

Module Arbiter.

Local Open Scope Z_scope.

(** ** Outcomes: a computation either completes or hits undefined
       behaviour (an out-of-range [operator[]] on a vector). *)

Inductive Outcome (A : Type) : Type :=
| Done (a : A)
| Fault.
Arguments Done {A} a.
Arguments Fault {A}.

#[global] Instance Outcome_ret : MRet Outcome := fun _ a => Done a.
#[global] Instance Outcome_bind : MBind Outcome := fun _ _ f m =>
  match m with
  | Done a => f a
  | Fault => Fault
  end.

(** [v[i]] on a [std::vector]. *)
Definition index {A : Type} (v : list A) (i : nat) : Outcome A :=
  match v !! i with
  | Some a => Done a
  | None => Fault
  end.

(** [m[k]] on a [std::map<std::string,int>]: the value read and the map
    afterwards. *)
Definition map_subscript (m : gmap string Z) (k : string) : Z * gmap string Z :=
  match m !! k with
  | Some v => (v, m)
  | None => (0, <[k := 0]> m)
  end.

(** ** External effects *)

Inductive Event : Type :=
| SwitchRequest (start stop : list string)
| RosError (text : string)
| RosWarn (text : string)
| RosInfo (text : string).

Definition is_switch (e : Event) : bool :=
  match e with
  | SwitchRequest _ _ => true
  | _ => false
  end.

(** ** The members of [MotionControllerInterface] *)

Record State : Type := mkState {
  current_mode_ : Z;
  current_controller_name_ : string;
  joint_position_controller_name_ : string;
  joint_velocity_controller_name_ : string;
  joint_torque_controller_name_ : string;
  joint_impedance_controller_name_ : string;
  cartesian_pose_controller_name_ : string;
  cartesian_impedance_controller_name_ : string;
  cartesian_force_controller_name_ : string;
  trajectory_controller_name_ : string;
  default_controller_name_ : string;
  all_controllers_ : list string;
  controller_name_to_mode_map_ : gmap string Z;
  box_timeout_length_ : option Z;
  box_cmd_timeout_ : option Z;
  trace : list Event
}.

Definition set_current_mode (m : Z) (st : State) : State :=
  mkState m (current_controller_name_ st)
    (joint_position_controller_name_ st) (joint_velocity_controller_name_ st)
    (joint_torque_controller_name_ st) (joint_impedance_controller_name_ st)
    (cartesian_pose_controller_name_ st) (cartesian_impedance_controller_name_ st)
    (cartesian_force_controller_name_ st) (trajectory_controller_name_ st)
    (default_controller_name_ st) (all_controllers_ st)
    (controller_name_to_mode_map_ st) (box_timeout_length_ st)
    (box_cmd_timeout_ st) (trace st).

Definition set_current_controller_name (c : string) (st : State) : State :=
  mkState (current_mode_ st) c
    (joint_position_controller_name_ st) (joint_velocity_controller_name_ st)
    (joint_torque_controller_name_ st) (joint_impedance_controller_name_ st)
    (cartesian_pose_controller_name_ st) (cartesian_impedance_controller_name_ st)
    (cartesian_force_controller_name_ st) (trajectory_controller_name_ st)
    (default_controller_name_ st) (all_controllers_ st)
    (controller_name_to_mode_map_ st) (box_timeout_length_ st)
    (box_cmd_timeout_ st) (trace st).

Definition set_controller_name_to_mode_map (m : gmap string Z) (st : State) : State :=
  mkState (current_mode_ st) (current_controller_name_ st)
    (joint_position_controller_name_ st) (joint_velocity_controller_name_ st)
    (joint_torque_controller_name_ st) (joint_impedance_controller_name_ st)
    (cartesian_pose_controller_name_ st) (cartesian_impedance_controller_name_ st)
    (cartesian_force_controller_name_ st) (trajectory_controller_name_ st)
    (default_controller_name_ st) (all_controllers_ st)
    m (box_timeout_length_ st) (box_cmd_timeout_ st) (trace st).

Definition set_box_timeout_length (d : option Z) (st : State) : State :=
  mkState (current_mode_ st) (current_controller_name_ st)
    (joint_position_controller_name_ st) (joint_velocity_controller_name_ st)
    (joint_torque_controller_name_ st) (joint_impedance_controller_name_ st)
    (cartesian_pose_controller_name_ st) (cartesian_impedance_controller_name_ st)
    (cartesian_force_controller_name_ st) (trajectory_controller_name_ st)
    (default_controller_name_ st) (all_controllers_ st)
    (controller_name_to_mode_map_ st) d (box_cmd_timeout_ st) (trace st).

Definition set_box_cmd_timeout (t : option Z) (st : State) : State :=
  mkState (current_mode_ st) (current_controller_name_ st)
    (joint_position_controller_name_ st) (joint_velocity_controller_name_ st)
    (joint_torque_controller_name_ st) (joint_impedance_controller_name_ st)
    (cartesian_pose_controller_name_ st) (cartesian_impedance_controller_name_ st)
    (cartesian_force_controller_name_ st) (trajectory_controller_name_ st)
    (default_controller_name_ st) (all_controllers_ st)
    (controller_name_to_mode_map_ st) (box_timeout_length_ st) t (trace st).

(** Append one external effect to the trace. *)
Definition emit (e : Event) (st : State) : State :=
  mkState (current_mode_ st) (current_controller_name_ st)
    (joint_position_controller_name_ st) (joint_velocity_controller_name_ st)
    (joint_torque_controller_name_ st) (joint_impedance_controller_name_ st)
    (cartesian_pose_controller_name_ st) (cartesian_impedance_controller_name_ st)
    (cartesian_force_controller_name_ st) (trajectory_controller_name_ st)
    (default_controller_name_ st) (all_controllers_ st)
    (controller_name_to_mode_map_ st) (box_timeout_length_ st)
    (box_cmd_timeout_ st) (trace st ++ [e]).

(** The switch requests issued so far, oldest first. *)
Definition switch_requests (st : State) : list Event :=
  List.filter is_switch (trace st).

(** The eight name members in the order [init] pushes them. *)
Definition configured_controllers (st : State) : list string :=
  [ joint_position_controller_name_ st; joint_velocity_controller_name_ st;
    joint_torque_controller_name_ st; joint_impedance_controller_name_ st;
    cartesian_pose_controller_name_ st; cartesian_impedance_controller_name_ st;
    cartesian_force_controller_name_ st; trajectory_controller_name_ st ].

(** ** Parameter server contents read by [init] *)

Record Params : Type := mkParams {
  p_joint_position_controller : option string;
  p_joint_velocity_controller : option string;
  p_joint_torque_controller : option string;
  p_joint_impedance_controller : option string;
  p_cartesian_pose_controller : option string;
  p_cartesian_impedance_controller : option string;
  p_cartesian_force_controller : option string;
  p_trajectory_controller : option string;
  p_default_controller : option string;
  p_command_timeout : option Z
}.

(** [std::min(1.0, std::max(0.0, d))] followed by the conversion to a
    [ros::Duration], on a value given in nanoseconds. *)
Definition clamp_timeout (d : Z) : Z := Z.min 1000000000 (Z.max 0 d).

Section WithEnvironment.

(** The constants of [franka_core_msgs::JointCommand]; the message
    definition is not part of the sources, so they are parameters. *)
Variables POSITION_MODE VELOCITY_MODE TORQUE_MODE IMPEDANCE_MODE : Z.

(** The answer of the k-th call of [controller_manager_->switchController]. *)
Variable switchController_reply : nat -> bool.

Definition recognized_modes : list Z :=
  [POSITION_MODE; VELOCITY_MODE; TORQUE_MODE; IMPEDANCE_MODE].

(** [controller_manager_->switchController(start, stop, BEST_EFFORT)]. *)
Definition call_switchController (start stop : list string) (st : State)
  : bool * State :=
  (switchController_reply (length (switch_requests st)),
   emit (SwitchRequest start stop) st).

(** *** [MotionControllerInterface::init] *)

Definition init (p : Params) : State :=
  let joint_position := default "joint_position_controller" (p_joint_position_controller p) in
  let joint_velocity := default "joint_velocity_controller" (p_joint_velocity_controller p) in
  let joint_torque := default "joint_torque_controller" (p_joint_torque_controller p) in
  let joint_impedance := default "joint_impedance_controller" (p_joint_impedance_controller p) in
  let cartesian_pose := default "cartesian_pose_controller" (p_cartesian_pose_controller p) in
  let cartesian_impedance :=
    default "cartesian_impedance_controller" (p_cartesian_impedance_controller p) in
  let cartesian_force := default "cartesian_force_controller" (p_cartesian_force_controller p) in
  let trajectory := default "position_joint_trajectory_controller" (p_trajectory_controller p) in
  let default_name := default "position_joint_trajectory_controller" (p_default_controller p) in
  let all_controllers :=
    [joint_position; joint_velocity; joint_torque; joint_impedance;
     cartesian_pose; cartesian_impedance; cartesian_force; trajectory] in
  let default_defined := existsb (fun c => String.eqb c default_name) all_controllers in
  let name_to_mode : gmap string Z :=
    <[trajectory := -1]>
      (<[cartesian_impedance := -1]>
        (<[cartesian_force := -1]>
          (<[cartesian_pose := -1]>
            (<[joint_velocity := VELOCITY_MODE]>
              (<[joint_impedance := IMPEDANCE_MODE]>
                (<[joint_torque := TORQUE_MODE]>
                  (<[joint_position := POSITION_MODE]> ∅))))))) in
  let command_timeout_default := default 200000000 (p_command_timeout p) in
  mkState (-1) default_name
    joint_position joint_velocity joint_torque joint_impedance
    cartesian_pose cartesian_impedance cartesian_force trajectory
    default_name all_controllers name_to_mode
    (Some (clamp_timeout command_timeout_default)) None
    ((if default_defined then []
      else [RosError "Default controller not present in the provided controllers!"])
     ++ [RosInfo "MotionControllerInterface Initialised"]).

(** *** [MotionControllerInterface::switchToDefaultController] *)

(** The loop over [all_controllers_]. *)
Definition split_by_default (dflt : string) (all : list string)
  : list string * list string :=
  fold_left
    (fun acc c =>
       if String.eqb c dflt then (fst acc ++ [c], snd acc)
       else (fst acc, snd acc ++ [c]))
    all ([], []).

(** The text streamed by the two [ROS_INFO_STREAM] statements (the
    logger being at its default level, the operands are evaluated); it
    reads [start_controllers[0]] and [stop_controllers[0..6]]. *)
Definition switch_report (start stop : list string) : Outcome string :=
  s0 ← index start 0;
  t0 ← index stop 0;
  t1 ← index stop 1;
  t2 ← index stop 2;
  t3 ← index stop 3;
  t4 ← index stop 4;
  t5 ← index stop 5;
  t6 ← index stop 6;
  mret ("MotionControllerInterface: Controller " +:+ s0 +:+ " started; Controllers "
        +:+ t0 +:+ ", " +:+ t1 +:+ ", " +:+ t2 +:+ ", " +:+ t3 +:+ ", " +:+ t4
        +:+ ", " +:+ t5 +:+ ", " +:+ t6 +:+ " stopped.").

Definition switchToDefaultController (st : State) : Outcome (bool * State) :=
  let (start_controllers, stop_controllers) :=
    split_by_default (default_controller_name_ st) (all_controllers_ st) in
  let (ok, st1) := call_switchController start_controllers stop_controllers st in
  if negb ok then
    mret (false, emit (RosError "Failed to switch controllers") st1)
  else
    s0 ← index start_controllers 0;
    let st2 := set_current_controller_name s0 st1 in
    let (m, map') :=
      map_subscript (controller_name_to_mode_map_ st2) (current_controller_name_ st2) in
    let st3 := set_current_mode m (set_controller_name_to_mode_map map' st2) in
    text ← switch_report start_controllers stop_controllers;
    mret (true, emit (RosInfo text) st3).

(** *** [MotionControllerInterface::commandTimeoutCheck]; [now] is the
        value of [ros::Time::now()]. *)

Definition command_timeout (now : Z) (st : State) : bool :=
  match box_cmd_timeout_ st, box_timeout_length_ st with
  | Some p_cmd_msg_time, Some p_timeout_length =>
      p_timeout_length <? now - p_cmd_msg_time
  | _, _ => false
  end.

Definition commandTimeoutCheck (now : Z) (st : State) : Outcome State :=
  if command_timeout now st
     && negb (String.eqb (current_controller_name_ st) (default_controller_name_ st))
  then
    let st1 :=
      emit (RosWarn ("MotionControllerInterface: Command timeout violated: Switching to Default control mode."
                     +:+ default_controller_name_ st)) st in
    '(_, st2) ← switchToDefaultController st1;
    mret st2
  else mret st.

(** *** [MotionControllerInterface::jointCommandTimeoutCallback] *)

Definition jointCommandTimeoutCallback (data : Z) (st : State) : State :=
  let st1 :=
    emit (RosInfo ("MotionControllerInterface: Joint command timeout: " +:+ pretty data)) st in
  set_box_timeout_length (Some (clamp_timeout data)) st1.

(** *** [MotionControllerInterface::switchControllers] *)

(** The [switch] statement: the start and stop vectors of a recognized
    mode, [None] for the [default:] label. *)
Definition select_controllers (control_mode : Z) (st : State)
  : option (list string * list string) :=
  if control_mode =? POSITION_MODE then
    Some ([joint_position_controller_name_ st],
          [joint_impedance_controller_name_ st; joint_torque_controller_name_ st;
           joint_velocity_controller_name_ st; cartesian_pose_controller_name_ st;
           cartesian_impedance_controller_name_ st; cartesian_force_controller_name_ st;
           trajectory_controller_name_ st])
  else if control_mode =? IMPEDANCE_MODE then
    Some ([joint_impedance_controller_name_ st],
          [joint_position_controller_name_ st; joint_torque_controller_name_ st;
           joint_velocity_controller_name_ st; cartesian_pose_controller_name_ st;
           cartesian_impedance_controller_name_ st; cartesian_force_controller_name_ st;
           trajectory_controller_name_ st])
  else if control_mode =? TORQUE_MODE then
    Some ([joint_torque_controller_name_ st],
          [joint_position_controller_name_ st; joint_impedance_controller_name_ st;
           joint_velocity_controller_name_ st; cartesian_pose_controller_name_ st;
           cartesian_impedance_controller_name_ st; cartesian_force_controller_name_ st;
           trajectory_controller_name_ st])
  else if control_mode =? VELOCITY_MODE then
    Some ([joint_velocity_controller_name_ st],
          [joint_position_controller_name_ st; joint_impedance_controller_name_ st;
           joint_torque_controller_name_ st; cartesian_pose_controller_name_ st;
           cartesian_impedance_controller_name_ st; cartesian_force_controller_name_ st;
           trajectory_controller_name_ st])
  else None.

Definition switchControllers (control_mode : Z) (st : State) : Outcome (bool * State) :=
  if negb (current_mode_ st =? control_mode) then
    match select_controllers control_mode st with
    | None =>
        mret (false,
              emit (RosError ("Unknown JointCommand mode " +:+ pretty control_mode
                              +:+ ". Ignoring command.")) st)
    | Some (start_controllers, stop_controllers) =>
        let (ok, st1) := call_switchController start_controllers stop_controllers st in
        if negb ok then
          mret (false, emit (RosError "Failed to switch controllers") st1)
        else
          let st2 := set_current_mode control_mode st1 in
          s0 ← index start_controllers 0;
          let st3 := set_current_controller_name s0 st2 in
          text ← switch_report start_controllers stop_controllers;
          mret (true, emit (RosInfo text) st3)
    end
  else mret (true, st).

(** *** [MotionControllerInterface::jointCommandCallback] *)

Definition jointCommandCallback (mode : Z) (now : Z) (st : State) : Outcome State :=
  '(ok, st1) ← switchControllers mode st;
  if ok : bool then mret (set_box_cmd_timeout (Some now) st1)
  else mret st1.

(** A run of watchdog ticks at the given instants, with no other
    callback in between. *)
Fixpoint run_ticks (ticks : list Z) (st : State) : Outcome State :=
  match ticks with
  | [] => mret st
  | now :: rest => st' ← commandTimeoutCheck now st; run_ticks rest st'
  end.

(** ** Properties of the arbiter *)

(** The number of entries of [all_controllers_] that carry the default
    controller's name. *)
Definition default_count (st : State) : nat :=
  length (List.filter (fun c => String.eqb c (default_controller_name_ st))
                      (all_controllers_ st)).

(** The association of the four recognized modes with name members, as
    [init] enters it in [controller_name_to_mode_map_]. *)
Definition mapped_controller (st : State) (mode : Z) (name : string) : Prop :=
  (mode = POSITION_MODE ∧ name = joint_position_controller_name_ st) ∨
  (mode = TORQUE_MODE ∧ name = joint_torque_controller_name_ st) ∨
  (mode = IMPEDANCE_MODE ∧ name = joint_impedance_controller_name_ st) ∨
  (mode = VELOCITY_MODE ∧ name = joint_velocity_controller_name_ st).

(** The members written once by [init] and read by the callbacks. *)
Definition configuration (st : State) : list string * string * list string :=
  (configured_controllers st, default_controller_name_ st, all_controllers_ st).

(** The stored timeout always lies between 0 and one second. *)
Lemma clamp_timeout_range d : 0 ≤ clamp_timeout d ≤ 1000000000.
Proof. unfold clamp_timeout. lia. Qed.

Lemma jointCommandTimeoutCallback_stored data st :
  ∃ d, box_timeout_length_ (jointCommandTimeoutCallback data st) = Some d
       ∧ 0 ≤ d ≤ 1000000000.
Proof. eexists. split; [reflexivity | apply clamp_timeout_range]. Qed.

Lemma bind_Done {A B : Type} (f : A → Outcome B) (a : A) :
  (Done a ≫= f) = f a.
Proof. reflexivity. Qed.

Lemma split_by_default_acc dflt all start stop :
  fold_left
    (fun acc c =>
       if String.eqb c dflt then (fst acc ++ [c], snd acc)
       else (fst acc, snd acc ++ [c]))
    all (start, stop)
  = (start ++ List.filter (fun c => String.eqb c dflt) all,
     stop ++ List.filter (fun c => negb (String.eqb c dflt)) all).
Proof.
  revert start stop.
  induction all as [|c all IH]; intros start stop; simpl.
  - by rewrite !app_nil_r.
  - destruct (String.eqb c dflt); simpl; rewrite IH, <- app_assoc; reflexivity.
Qed.

Lemma split_by_default_filter dflt all :
  split_by_default dflt all
  = (List.filter (fun c => String.eqb c dflt) all,
     List.filter (fun c => negb (String.eqb c dflt)) all).
Proof. unfold split_by_default. apply split_by_default_acc. Qed.

Lemma filter_split_length {A : Type} (f : A → bool) (l : list A) :
  (length (List.filter f l) + length (List.filter (fun a => negb (f a)) l))%nat
  = length l.
Proof.
  induction l as [|a l IH]; simpl; [reflexivity|].
  destruct (f a); simpl; lia.
Qed.

Lemma filter_split_perm {A : Type} (f : A → bool) (l : list A) :
  List.filter f l ++ List.filter (fun a => negb (f a)) l ≡ₚ l.
Proof.
  induction l as [|a l IH]; simpl; [reflexivity|].
  destruct (f a); simpl.
  - by constructor.
  - rewrite <- Permutation_middle. by constructor.
Qed.

Lemma filter_eqb_all dflt (l : list string) :
  Forall (fun c => c = dflt) (List.filter (fun c => String.eqb c dflt) l).
Proof.
  induction l as [|a l IH]; simpl; [constructor|].
  destruct (String.eqb_spec a dflt); [constructor|]; assumption.
Qed.

Lemma filter_eqb_absent dflt (l : list string) :
  dflt ∉ l → List.filter (fun c => String.eqb c dflt) l = [].
Proof.
  induction l as [|a l IH]; simpl; intros Hnot; [reflexivity|].
  destruct (String.eqb_spec a dflt) as [->|_].
  - exfalso. apply Hnot. by left.
  - apply IH. intros Hin. apply Hnot. by right.
Qed.

Lemma switch_requests_emit e st :
  switch_requests (emit e st)
  = switch_requests st ++ (if is_switch e then [e] else []).
Proof.
  unfold switch_requests. simpl. rewrite List.filter_app. simpl.
  by destruct (is_switch e).
Qed.

Lemma switch_requests_set_current_mode m st :
  switch_requests (set_current_mode m st) = switch_requests st.
Proof. reflexivity. Qed.

Lemma switch_requests_set_current_controller_name c st :
  switch_requests (set_current_controller_name c st) = switch_requests st.
Proof. reflexivity. Qed.

Lemma switch_requests_set_controller_name_to_mode_map m st :
  switch_requests (set_controller_name_to_mode_map m st) = switch_requests st.
Proof. reflexivity. Qed.

Lemma switch_requests_set_box_cmd_timeout t st :
  switch_requests (set_box_cmd_timeout t st) = switch_requests st.
Proof. reflexivity. Qed.

Create Rewrite HintDb arbiter.
#[local] Hint Rewrite switch_requests_emit switch_requests_set_current_mode
  switch_requests_set_current_controller_name
  switch_requests_set_controller_name_to_mode_map
  switch_requests_set_box_cmd_timeout : arbiter.

(** Normalise the list of switch requests of an updated state. *)
Ltac requests := autorewrite with arbiter; simpl; rewrite ?app_nil_r; try reflexivity.

(** A state whose current controller is the default one is a fixed
    point of the watchdog. *)
Lemma commandTimeoutCheck_at_default now st :
  current_controller_name_ st = default_controller_name_ st →
  commandTimeoutCheck now st = Done st.
Proof.
  intros Heq. unfold commandTimeoutCheck.
  rewrite Heq, String.eqb_refl, andb_false_r. reflexivity.
Qed.

Lemma run_ticks_at_default ticks st :
  current_controller_name_ st = default_controller_name_ st →
  run_ticks ticks st = Done st.
Proof.
  intros Heq. induction ticks as [|now rest IH]; simpl; [reflexivity|].
  rewrite commandTimeoutCheck_at_default by assumption.
  rewrite bind_Done. exact IH.
Qed.

(** With the default name carried by exactly one of eight entries, the
    loop of [switchToDefaultController] starts that entry and stops the
    seven others. *)
Lemma split_by_default_once st :
  length (all_controllers_ st) = 8%nat →
  default_count st = 1%nat →
  ∃ t0 t1 t2 t3 t4 t5 t6,
    split_by_default (default_controller_name_ st) (all_controllers_ st)
    = ([default_controller_name_ st], [t0; t1; t2; t3; t4; t5; t6])
    ∧ default_controller_name_ st :: [t0; t1; t2; t3; t4; t5; t6]
      ≡ₚ all_controllers_ st.
Proof.
  unfold default_count. intros Hlen Hcount.
  pose proof (filter_split_length
                (fun c => String.eqb c (default_controller_name_ st))
                (all_controllers_ st)) as Hsum.
  pose proof (filter_split_perm
                (fun c => String.eqb c (default_controller_name_ st))
                (all_controllers_ st)) as Hperm.
  pose proof (filter_eqb_all (default_controller_name_ st) (all_controllers_ st))
    as Hall.
  rewrite split_by_default_filter.
  destruct (List.filter (fun c => String.eqb c (default_controller_name_ st))
                        (all_controllers_ st)) as [|s [|]]; simpl in Hcount; try lia.
  inversion Hall as [|? ? Hs _]; subst s.
  destruct (List.filter (fun c => negb (String.eqb c (default_controller_name_ st)))
                        (all_controllers_ st))
    as [|t0 [|t1 [|t2 [|t3 [|t4 [|t5 [|t6 [|]]]]]]]]; simpl in Hsum; try lia.
  exists t0, t1, t2, t3, t4, t5, t6. split; [reflexivity | exact Hperm].
Qed.

Lemma NoDup_four (a b c d : Z) :
  NoDup [a; b; c; d] → a ≠ b ∧ a ≠ c ∧ a ≠ d ∧ b ≠ c ∧ b ≠ d ∧ c ≠ d.
Proof.
  intros H.
  apply NoDup_cons in H as [Ha H]. apply NoDup_cons in H as [Hb H].
  apply NoDup_cons in H as [Hc _].
  apply not_elem_of_cons in Ha as [Hab Ha]. apply not_elem_of_cons in Ha as [Hac Ha].
  apply not_elem_of_cons in Ha as [Had _]. apply not_elem_of_cons in Hb as [Hbc Hb].
  apply not_elem_of_cons in Hb as [Hbd _]. apply not_elem_of_cons in Hc as [Hcd _].
  repeat split; assumption.
Qed.

Lemma recognized_select control_mode st :
  NoDup recognized_modes →
  control_mode ∈ recognized_modes →
  ∃ name stop,
    select_controllers control_mode st = Some ([name], stop)
    ∧ mapped_controller st control_mode name
    ∧ length stop = 7%nat
    ∧ name :: stop ≡ₚ configured_controllers st.
Proof.
  unfold recognized_modes, select_controllers, mapped_controller, configured_controllers.
  intros Hnd Hin.
  apply NoDup_four in Hnd as (Hpv & Hpt & Hpi & Hvt & Hvi & Hti).
  rewrite !elem_of_cons in Hin.
  destruct Hin as [->|[->|[->|[->|Hnil]]]]; [| | | |by apply elem_of_nil in Hnil].
  - rewrite Z.eqb_refl. eexists _, _. split; [reflexivity|]. split; [by left|].
    split; [reflexivity | solve_Permutation].
  - destruct (Z.eqb_spec VELOCITY_MODE POSITION_MODE); [congruence|].
    destruct (Z.eqb_spec VELOCITY_MODE IMPEDANCE_MODE); [congruence|].
    destruct (Z.eqb_spec VELOCITY_MODE TORQUE_MODE); [congruence|].
    rewrite Z.eqb_refl. eexists _, _. split; [reflexivity|].
    split; [by right; right; right|].
    split; [reflexivity | solve_Permutation].
  - destruct (Z.eqb_spec TORQUE_MODE POSITION_MODE); [congruence|].
    destruct (Z.eqb_spec TORQUE_MODE IMPEDANCE_MODE); [congruence|].
    rewrite Z.eqb_refl. eexists _, _. split; [reflexivity|].
    split; [by right; left|].
    split; [reflexivity | solve_Permutation].
  - destruct (Z.eqb_spec IMPEDANCE_MODE POSITION_MODE); [congruence|].
    rewrite Z.eqb_refl. eexists _, _. split; [reflexivity|].
    split; [by right; right; left|].
    split; [reflexivity | solve_Permutation].
Qed.

Lemma unrecognized_select control_mode st :
  control_mode ∉ recognized_modes →
  select_controllers control_mode st = None.
Proof.
  unfold recognized_modes, select_controllers. rewrite !not_elem_of_cons.
  intros (Hp & Hv & Ht & Hi & _).
  destruct (Z.eqb_spec control_mode POSITION_MODE); [done|].
  destruct (Z.eqb_spec control_mode IMPEDANCE_MODE); [done|].
  destruct (Z.eqb_spec control_mode TORQUE_MODE); [done|].
  destruct (Z.eqb_spec control_mode VELOCITY_MODE); [done|].
  reflexivity.
Qed.

Lemma select_controllers_shape control_mode st start stop :
  select_controllers control_mode st = Some (start, stop) →
  ∃ name, start = [name] ∧ length stop = 7%nat.
Proof.
  unfold select_controllers. intros H.
  repeat match type of H with
         | (if ?b then _ else _) = _ => destruct b
         end; simplify_eq; eauto.
Qed.

(** C3. A request for one of the four recognized modes, different from
    the current mode and granted by the controller manager, returns
    true; afterwards the current mode is the requested one, the current
    controller is the one mapped to it, and the single switch request
    issued starts exactly that controller and stops the seven other
    configured controllers. *)
Theorem switchControllers_success (st : State) (control_mode : Z) :
  NoDup recognized_modes →
  control_mode ∈ recognized_modes →
  current_mode_ st ≠ control_mode →
  switchController_reply (length (switch_requests st)) = true →
  ∃ name stop st',
    mapped_controller st control_mode name
    ∧ switchControllers control_mode st = Done (true, st')
    ∧ current_mode_ st' = control_mode
    ∧ current_controller_name_ st' = name
    ∧ switch_requests st' = switch_requests st ++ [SwitchRequest [name] stop]
    ∧ length stop = 7%nat
    ∧ name :: stop ≡ₚ configured_controllers st.
Proof.
  intros Hnd Hin Hne Hreply.
  destruct (recognized_select control_mode st Hnd Hin)
    as (name & stop & Hsel & Hmap & Hlen & Hperm).
  exists name, stop.
  unfold switchControllers.
  destruct (Z.eqb_spec (current_mode_ st) control_mode) as [|_]; [done|].
  simpl negb. cbv iota. rewrite Hsel.
  unfold call_switchController. rewrite Hreply. simpl negb. cbv iota.
  destruct stop as [|t0 [|t1 [|t2 [|t3 [|t4 [|t5 [|t6 [|]]]]]]]]; simpl in Hlen; try lia.
  eexists. split; [exact Hmap|]. split; [reflexivity|].
  repeat split; try assumption. requests.
Qed.

(** C4 (amended). A request that differs from the current mode and is
    either for a mode outside the four recognized ones or refused by the
    controller manager returns false and leaves every member of the
    arbiter as it was; only the trace grows. *)
Theorem switchControllers_failure (st : State) (control_mode : Z) :
  current_mode_ st ≠ control_mode →
  control_mode ∉ recognized_modes
  ∨ switchController_reply (length (switch_requests st)) = false →
  ∃ st',
    switchControllers control_mode st = Done (false, st')
    ∧ current_mode_ st' = current_mode_ st
    ∧ current_controller_name_ st' = current_controller_name_ st
    ∧ box_cmd_timeout_ st' = box_cmd_timeout_ st
    ∧ box_timeout_length_ st' = box_timeout_length_ st
    ∧ controller_name_to_mode_map_ st' = controller_name_to_mode_map_ st.
Proof.
  intros Hne Hcase. unfold switchControllers.
  destruct (Z.eqb_spec (current_mode_ st) control_mode) as [|_]; [done|].
  simpl negb. cbv iota.
  destruct (select_controllers control_mode st) as [[start stop]|] eqn:Hsel.
  - destruct Hcase as [Hunk|Hreply].
    + rewrite (unrecognized_select _ _ Hunk) in Hsel. discriminate.
    + unfold call_switchController. rewrite Hreply. simpl.
      eexists. split; [reflexivity|]. repeat split.
  - eexists. split; [reflexivity|]. repeat split.
Qed.

(** C5. A request for the current mode returns true and leaves the whole
    state, trace included, as it was: no switch request is issued and
    nothing is logged. *)
Theorem switchControllers_same_mode (st : State) :
  switchControllers (current_mode_ st) st = Done (true, st).
Proof.
  unfold switchControllers. rewrite Z.eqb_refl. reflexivity.
Qed.

(** C9. While no command time is stored, the watchdog tick returns the
    state as it is, whatever the instant and whatever the current
    controller: no switch request, no log line, no member changed. *)
Theorem commandTimeoutCheck_before_first_command (st : State) (now : Z) :
  box_cmd_timeout_ st = None →
  commandTimeoutCheck now st = Done st.
Proof.
  intros Hnone. unfold commandTimeoutCheck, command_timeout.
  rewrite Hnone. reflexivity.
Qed.

(** [switchControllers] never touches the stored command time. *)
Lemma switchControllers_box_cmd_timeout mode st ok st1 :
  switchControllers mode st = Done (ok, st1) →
  box_cmd_timeout_ st1 = box_cmd_timeout_ st.
Proof.
  unfold switchControllers.
  destruct (negb (current_mode_ st =? mode)); [|inversion 1; reflexivity].
  destruct (select_controllers mode st) as [[start stop]|] eqn:Hsel;
    [|inversion 1; reflexivity].
  apply select_controllers_shape in Hsel as (name & -> & Hlen).
  unfold call_switchController.
  destruct (switchController_reply _); simpl; [|inversion 1; reflexivity].
  destruct stop as [|t0 [|t1 [|t2 [|t3 [|t4 [|t5 [|t6 [|]]]]]]]];
    simpl in Hlen; try lia.
  inversion 1; reflexivity.
Qed.

(** The command time is stored by [jointCommandCallback] exactly when
    [switchControllers] returns true. *)
Lemma jointCommandCallback_accepted mode now st st1 :
  switchControllers mode st = Done (true, st1) →
  jointCommandCallback mode now st = Done (set_box_cmd_timeout (Some now) st1).
Proof. unfold jointCommandCallback. intros ->. reflexivity. Qed.

Lemma jointCommandCallback_rejected mode now st st1 :
  switchControllers mode st = Done (false, st1) →
  jointCommandCallback mode now st = Done st1
  ∧ box_cmd_timeout_ st1 = box_cmd_timeout_ st.
Proof.
  intros Hsw. split.
  - unfold jointCommandCallback. rewrite Hsw. reflexivity.
  - by apply switchControllers_box_cmd_timeout in Hsw.
Qed.

Lemma init_no_command p : box_cmd_timeout_ (init p) = None.
Proof. reflexivity. Qed.

(** Under the controller-set invariant: with a stored command time older
    than the stored timeout and a current controller other than the
    default, in a set of eight controllers exactly one of which carries
    the default name, the tick issues exactly one switch request, which
    starts the default controller and stops the seven others; when the
    controller manager grants it, the default controller becomes current
    and any further run of ticks leaves the state, trace included, as it
    is. *)
Theorem commandTimeoutCheck_reverts_once (st : State) (now t d : Z) :
  length (all_controllers_ st) = 8%nat →
  default_count st = 1%nat →
  box_cmd_timeout_ st = Some t →
  box_timeout_length_ st = Some d →
  d < now - t →
  current_controller_name_ st ≠ default_controller_name_ st →
  ∃ stop st',
    commandTimeoutCheck now st = Done st'
    ∧ switch_requests st'
      = switch_requests st ++ [SwitchRequest [default_controller_name_ st] stop]
    ∧ default_controller_name_ st :: stop ≡ₚ all_controllers_ st
    ∧ (switchController_reply (length (switch_requests st)) = true →
       current_controller_name_ st' = default_controller_name_ st
       ∧ ∀ later, run_ticks later st' = Done st').
Proof.
  intros Hlen Hcount Ht Hd Hlate Hne.
  destruct (split_by_default_once st Hlen Hcount)
    as (t0 & t1 & t2 & t3 & t4 & t5 & t6 & Hsplit & Hperm).
  exists [t0; t1; t2; t3; t4; t5; t6].
  unfold commandTimeoutCheck, command_timeout. rewrite Ht, Hd.
  destruct (Z.ltb_spec d (now - t)) as [_|]; [|lia].
  destruct (String.eqb_spec (current_controller_name_ st) (default_controller_name_ st))
    as [|_]; [done|].
  simpl andb. cbv iota.
  unfold switchToDefaultController. simpl default_controller_name_.
  simpl all_controllers_. rewrite Hsplit.
  unfold call_switchController. rewrite switch_requests_emit. simpl is_switch.
  cbv iota. rewrite app_nil_r.
  destruct (switchController_reply (length (switch_requests st))); simpl negb; cbv iota.
  - unfold index at 1. simpl lookup. cbv iota. rewrite bind_Done.
    destruct (map_subscript _ _) as [m map'].
    eexists. split; [reflexivity|]. split; [|split; [exact Hperm|]].
    + requests.
    + intros _. split; [reflexivity|].
      intros later. by apply run_ticks_at_default.
  - eexists. split; [reflexivity|]. split; [|split; [exact Hperm|]].
    + requests.
    + intros Habs. discriminate Habs.
Qed.

(** Without the default name among [all_controllers_], a granted switch
    to the default controller reads [start_controllers[0]] of an empty
    vector. *)
Lemma switchToDefaultController_missing_default st :
  default_controller_name_ st ∉ all_controllers_ st →
  switchController_reply (length (switch_requests st)) = true →
  switchToDefaultController st = Fault.
Proof.
  intros Hnot Hreply. unfold switchToDefaultController.
  rewrite split_by_default_filter, (filter_eqb_absent _ _ Hnot).
  unfold call_switchController. rewrite Hreply. reflexivity.
Qed.

Lemma init_all_controllers p :
  all_controllers_ (init p) = configured_controllers (init p).
Proof. reflexivity. Qed.

Lemma switchControllers_configuration mode st ok st1 :
  switchControllers mode st = Done (ok, st1) →
  configuration st1 = configuration st.
Proof.
  unfold switchControllers.
  destruct (negb (current_mode_ st =? mode)); [|inversion 1; reflexivity].
  destruct (select_controllers mode st) as [[start stop]|] eqn:Hsel;
    [|inversion 1; reflexivity].
  apply select_controllers_shape in Hsel as (name & -> & Hlen).
  unfold call_switchController.
  destruct (switchController_reply _); simpl; [|inversion 1; reflexivity].
  destruct stop as [|t0 [|t1 [|t2 [|t3 [|t4 [|t5 [|t6 [|]]]]]]]];
    simpl in Hlen; try lia.
  inversion 1; reflexivity.
Qed.

Lemma switchToDefaultController_configuration st ok st1 :
  switchToDefaultController st = Done (ok, st1) →
  configuration st1 = configuration st.
Proof.
  unfold switchToDefaultController.
  destruct (split_by_default _ _) as [start stop].
  unfold call_switchController.
  destruct (switchController_reply _); simpl; [|inversion 1; reflexivity].
  destruct (index start 0) as [s0|]; [|discriminate]. rewrite bind_Done.
  destruct (map_subscript _ _) as [m map'].
  destruct (switch_report start stop) as [text|]; [|discriminate].
  inversion 1; reflexivity.
Qed.

Lemma commandTimeoutCheck_configuration now st st1 :
  commandTimeoutCheck now st = Done st1 →
  configuration st1 = configuration st.
Proof.
  unfold commandTimeoutCheck.
  destruct (_ && _); [|inversion 1; reflexivity].
  destruct (switchToDefaultController _) as [[ok st2]|] eqn:Hsw; [|discriminate].
  inversion 1; subst.
  apply switchToDefaultController_configuration in Hsw. exact Hsw.
Qed.

Lemma jointCommandCallback_configuration mode now st st1 :
  jointCommandCallback mode now st = Done st1 →
  configuration st1 = configuration st.
Proof.
  unfold jointCommandCallback.
  destruct (switchControllers mode st) as [[ok st2]|] eqn:Hsw; [|discriminate].
  apply switchControllers_configuration in Hsw.
  destruct ok; inversion 1; subst; exact Hsw.
Qed.

(** With pairwise different configured names, the map built by [init]
    sends the controller of each recognized mode to that mode. *)
Lemma init_mode_map p mode name :
  NoDup (configured_controllers (init p)) →
  mapped_controller (init p) mode name →
  controller_name_to_mode_map_ (init p) !! name = Some mode.
Proof.
  unfold mapped_controller, configured_controllers. simpl.
  intros Hnd Hmap.
  repeat (apply NoDup_cons in Hnd as [? Hnd]).
  repeat match goal with
         | H : _ ∉ _ :: _ |- _ => apply not_elem_of_cons in H as [? ?]
         end.
  destruct Hmap as [[-> ->]|[[-> ->]|[[-> ->]|[-> ->]]]];
    repeat (rewrite lookup_insert_ne by congruence); apply lookup_insert_eq.
Qed.

(** ** Runs of callbacks

    The three callbacks of the arbiter, serialised by [mtx_] (the timeout
    callback takes no lock; it only replaces the stored duration). *)

Inductive Callback : Type :=
| TimerEvent (now : Z)
| JointCommand (mode now : Z)
| JointCommandTimeout (data : Z).

Definition dispatch (cb : Callback) (st : State) : Outcome State :=
  match cb with
  | TimerEvent now => commandTimeoutCheck now st
  | JointCommand mode now => jointCommandCallback mode now st
  | JointCommandTimeout data => mret (jointCommandTimeoutCallback data st)
  end.

Fixpoint run_callbacks (cbs : list Callback) (st : State) : Outcome State :=
  match cbs with
  | [] => mret st
  | cb :: rest => st' ← dispatch cb st; run_callbacks rest st'
  end.

(** Every entry of [all_controllers_] is a key of the mode map. *)
Definition keys_registered (st : State) : Prop :=
  ∀ c, c ∈ all_controllers_ st → is_Some (controller_name_to_mode_map_ st !! c).

(** A key whose entry is a recognized mode is the name member [init]
    associates with that mode. *)
Definition map_sound (st : State) : Prop :=
  ∀ name m,
    controller_name_to_mode_map_ st !! name = Some m →
    m ∈ recognized_modes → mapped_controller st m name.

(** The current mode, when it is a recognized one, is the mode of the
    current controller. *)
Definition mode_consistent (st : State) : Prop :=
  current_mode_ st ∈ recognized_modes →
  mapped_controller st (current_mode_ st) (current_controller_name_ st).

(** A timeout is stored and lies between 0 and one second. *)
Definition timeout_stored (st : State) : Prop :=
  ∃ d, box_timeout_length_ st = Some d ∧ 0 ≤ d ≤ 1000000000.

Lemma select_controllers_mapped control_mode st start stop :
  select_controllers control_mode st = Some (start, stop) →
  ∃ name, start = [name] ∧ mapped_controller st control_mode name
          ∧ control_mode ∈ recognized_modes ∧ length stop = 7%nat.
Proof.
  unfold select_controllers, mapped_controller, recognized_modes.
  destruct (Z.eqb_spec control_mode POSITION_MODE) as [->|_].
  { intros [= <- <-]. eexists. split; [reflexivity|]. split; [by left|].
    split; [set_solver | reflexivity]. }
  destruct (Z.eqb_spec control_mode IMPEDANCE_MODE) as [->|_].
  { intros [= <- <-]. eexists. split; [reflexivity|].
    split; [by right; right; left|]. split; [set_solver | reflexivity]. }
  destruct (Z.eqb_spec control_mode TORQUE_MODE) as [->|_].
  { intros [= <- <-]. eexists. split; [reflexivity|].
    split; [by right; left|]. split; [set_solver | reflexivity]. }
  destruct (Z.eqb_spec control_mode VELOCITY_MODE) as [->|_]; [|discriminate].
  intros [= <- <-]. eexists. split; [reflexivity|].
  split; [by right; right; right|]. split; [set_solver | reflexivity].
Qed.

Lemma mapped_controller_configuration st st' mode name :
  configuration st' = configuration st →
  mapped_controller st mode name → mapped_controller st' mode name.
Proof.
  unfold configuration, configured_controllers, mapped_controller.
  intros [= Hjp Hjv Hjt Hji _ _ _ _ _ _]. rewrite Hjp, Hjt, Hji, Hjv. tauto.
Qed.

(** What a completed [switchControllers] may have changed. *)
Lemma switchControllers_effect mode st ok st1 :
  switchControllers mode st = Done (ok, st1) →
  configuration st1 = configuration st
  ∧ controller_name_to_mode_map_ st1 = controller_name_to_mode_map_ st
  ∧ box_timeout_length_ st1 = box_timeout_length_ st
  ∧ box_cmd_timeout_ st1 = box_cmd_timeout_ st
  ∧ ((current_mode_ st1 = current_mode_ st
      ∧ current_controller_name_ st1 = current_controller_name_ st)
     ∨ (ok = true ∧ current_mode_ st1 = mode ∧ mode ∈ recognized_modes
        ∧ mapped_controller st mode (current_controller_name_ st1))).
Proof.
  unfold switchControllers.
  destruct (negb (current_mode_ st =? mode)); [|inversion 1; subst; tauto].
  destruct (select_controllers mode st) as [[start stop]|] eqn:Hsel;
    [|inversion 1; subst; simpl; tauto].
  apply select_controllers_mapped in Hsel as (name & -> & Hmap & Hrec & Hlen).
  unfold call_switchController.
  destruct (switchController_reply _); simpl; [|inversion 1; subst; simpl; tauto].
  destruct stop as [|t0 [|t1 [|t2 [|t3 [|t4 [|t5 [|t6 [|]]]]]]]];
    simpl in Hlen; try lia.
  inversion 1; subst; simpl. repeat split; try reflexivity. right. tauto.
Qed.

(** What a completed [switchToDefaultController] may have changed. *)
Lemma switchToDefaultController_effect st ok st1 :
  keys_registered st →
  switchToDefaultController st = Done (ok, st1) →
  configuration st1 = configuration st
  ∧ controller_name_to_mode_map_ st1 = controller_name_to_mode_map_ st
  ∧ box_timeout_length_ st1 = box_timeout_length_ st
  ∧ box_cmd_timeout_ st1 = box_cmd_timeout_ st
  ∧ ((ok = false ∧ current_mode_ st1 = current_mode_ st
      ∧ current_controller_name_ st1 = current_controller_name_ st)
     ∨ (ok = true ∧ current_controller_name_ st1 = default_controller_name_ st
        ∧ controller_name_to_mode_map_ st !! default_controller_name_ st
          = Some (current_mode_ st1))).
Proof.
  intros Hkeys. unfold switchToDefaultController.
  rewrite split_by_default_filter.
  pose proof (filter_eqb_all (default_controller_name_ st) (all_controllers_ st)) as Hall.
  assert (Hsub : ∀ c, c ∈ List.filter (fun c => String.eqb c (default_controller_name_ st))
                             (all_controllers_ st) → c ∈ all_controllers_ st).
  { intros c Hc. apply list_elem_of_In in Hc. apply List.filter_In in Hc as [Hc _].
    by apply list_elem_of_In. }
  destruct (List.filter (fun c => String.eqb c (default_controller_name_ st))
                        (all_controllers_ st)) as [|s0 start].
  - unfold call_switchController.
    destruct (switchController_reply _); simpl; [discriminate|].
    inversion 1; subst; simpl. repeat split; try reflexivity. left. tauto.
  - inversion Hall as [|? ? Hs _]; subst s0.
    destruct (Hkeys (default_controller_name_ st)) as [v Hv]; [apply Hsub; by left|].
    unfold call_switchController.
    destruct (switchController_reply _); simpl negb; cbv iota.
    + unfold index at 1. simpl lookup. cbv iota. rewrite bind_Done.
      simpl controller_name_to_mode_map_. simpl current_controller_name_.
      unfold map_subscript. rewrite Hv.
      destruct (switch_report _ _) as [text|]; [|discriminate].
      rewrite bind_Done. inversion 1; subst; simpl.
      repeat split; try reflexivity. right. tauto.
    + inversion 1; subst; simpl. repeat split; try reflexivity. left. tauto.
Qed.

(** What a completed callback may have changed. *)
Lemma dispatch_effect cb st st' :
  keys_registered st →
  dispatch cb st = Done st' →
  configuration st' = configuration st
  ∧ controller_name_to_mode_map_ st' = controller_name_to_mode_map_ st
  ∧ (timeout_stored st → timeout_stored st')
  ∧ ((current_mode_ st' = current_mode_ st
      ∧ current_controller_name_ st' = current_controller_name_ st)
     ∨ (current_mode_ st' ∈ recognized_modes
        ∧ mapped_controller st (current_mode_ st') (current_controller_name_ st'))
     ∨ controller_name_to_mode_map_ st !! current_controller_name_ st'
       = Some (current_mode_ st')).
Proof.
  intros Hkeys. destruct cb as [now|mode now|data]; simpl.
  - unfold commandTimeoutCheck.
    destruct (_ && _); [|inversion 1; subst; tauto].
    destruct (switchToDefaultController _) as [[ok st2]|] eqn:Hsw; [|discriminate].
    rewrite bind_Done. inversion 1; subst.
    apply switchToDefaultController_effect in Hsw; [|exact Hkeys].
    destruct Hsw as (Hc & Hm & Ht & _ & Hcur). simpl in *.
    split; [exact Hc|]. split; [exact Hm|].
    split; [unfold timeout_stored; by rewrite Ht|].
    destruct Hcur as [(_ & ? & ?)|(_ & -> & ?)]; [by left | by right; right].
  - unfold jointCommandCallback.
    destruct (switchControllers mode st) as [[ok st2]|] eqn:Hsw; [|discriminate].
    rewrite bind_Done.
    apply switchControllers_effect in Hsw as (Hc & Hm & Ht & _ & Hcur).
    assert (Hfin : ∀ st3, configuration st3 = configuration st2 →
                          controller_name_to_mode_map_ st3 = controller_name_to_mode_map_ st2 →
                          box_timeout_length_ st3 = box_timeout_length_ st2 →
                          current_mode_ st3 = current_mode_ st2 →
                          current_controller_name_ st3 = current_controller_name_ st2 →
                          configuration st3 = configuration st
                          ∧ controller_name_to_mode_map_ st3
                            = controller_name_to_mode_map_ st
                          ∧ (timeout_stored st → timeout_stored st3)
                          ∧ ((current_mode_ st3 = current_mode_ st
                              ∧ current_controller_name_ st3 = current_controller_name_ st)
                             ∨ (current_mode_ st3 ∈ recognized_modes
                                ∧ mapped_controller st (current_mode_ st3)
                                                    (current_controller_name_ st3))
                             ∨ controller_name_to_mode_map_ st !! current_controller_name_ st3
                               = Some (current_mode_ st3))).
    { intros st3 Hc3 Hm3 Ht3 Hmode3 Hname3.
      split; [congruence|]. split; [congruence|].
      split; [unfold timeout_stored; by rewrite Ht3, Ht|].
      rewrite Hmode3, Hname3.
      destruct Hcur as [[? ?]|(_ & -> & ? & ?)]; [by left | by right; left]. }
    destruct ok; intros [= <-]; apply Hfin; reflexivity.
  - inversion 1; subst; simpl.
    split; [reflexivity|]. split; [reflexivity|].
    split; [intros _; exists (clamp_timeout data);
            split; [reflexivity | apply clamp_timeout_range]|].
    by left.
Qed.

Lemma init_keys_registered p : keys_registered (init p).
Proof.
  intros c Hc. simpl in Hc. simpl controller_name_to_mode_map_.
  repeat (apply elem_of_cons in Hc as [->|Hc]); [..|by apply elem_of_nil in Hc];
    repeat (rewrite lookup_insert; case_decide; [by eexists|]); congruence.
Qed.

Lemma init_timeout_stored p : timeout_stored (init p).
Proof. eexists. split; [reflexivity | apply clamp_timeout_range]. Qed.

Lemma init_map_sound p :
  (-1) ∉ recognized_modes → map_sound (init p).
Proof.
  intros Hneg name m Hlook Hrec. simpl in Hlook.
  assert (Hm : m ≠ -1) by (intros ->; contradiction).
  unfold mapped_controller. simpl.
  repeat (rewrite lookup_insert in Hlook; case_decide; [simplify_eq; tauto|]).
  rewrite lookup_empty in Hlook. discriminate.
Qed.

(** The invariants are kept by every completed callback. *)
Lemma dispatch_keeps cb st st' :
  keys_registered st → map_sound st → mode_consistent st →
  dispatch cb st = Done st' →
  keys_registered st' ∧ map_sound st' ∧ mode_consistent st'.
Proof.
  intros Hkeys Hsound Hcons Hrun.
  destruct (dispatch_effect cb st st' Hkeys Hrun) as (Hc & Hm & _ & Hcur).
  assert (Hall : all_controllers_ st' = all_controllers_ st)
    by (unfold configuration in Hc; congruence).
  split; [|split].
  - intros c. rewrite Hall, Hm. apply Hkeys.
  - intros name m. rewrite Hm. intros Hl Hr.
    apply (mapped_controller_configuration st st' _ _ Hc). by apply Hsound.
  - unfold mode_consistent. intros Hrec.
    apply (mapped_controller_configuration st st' _ _ Hc).
    destruct Hcur as [[Emode Ename]|[[_ Hmap]|Hlook]].
    + rewrite Emode, Ename. apply Hcons. by rewrite <- Emode.
    + exact Hmap.
    + by apply Hsound.
Qed.

Lemma run_callbacks_keeps cbs st st' :
  keys_registered st → map_sound st → mode_consistent st →
  run_callbacks cbs st = Done st' →
  keys_registered st' ∧ map_sound st' ∧ mode_consistent st'.
Proof.
  revert st. induction cbs as [|cb cbs IH]; intros st Hk Hs Hc; simpl.
  - intros [= <-]. tauto.
  - destruct (dispatch cb st) as [st1|] eqn:Hd; [|discriminate].
    rewrite bind_Done.
    destruct (dispatch_keeps cb st st1 Hk Hs Hc Hd) as (Hk1 & Hs1 & Hc1).
    by apply IH.
Qed.

Lemma run_callbacks_frame cbs st st' :
  keys_registered st →
  run_callbacks cbs st = Done st' →
  keys_registered st'
  ∧ configuration st' = configuration st
  ∧ controller_name_to_mode_map_ st' = controller_name_to_mode_map_ st
  ∧ (timeout_stored st → timeout_stored st').
Proof.
  revert st. induction cbs as [|cb cbs IH]; intros st Hk; simpl.
  - intros [= <-]. tauto.
  - destruct (dispatch cb st) as [st1|] eqn:Hd; [|discriminate].
    rewrite bind_Done. intros Hrun.
    destruct (dispatch_effect cb st st1 Hk Hd) as (Hc & Hm & Ht & _).
    assert (Hk1 : keys_registered st1).
    { intros c. unfold configuration in Hc.
      assert (all_controllers_ st1 = all_controllers_ st) as -> by congruence.
      rewrite Hm. apply Hk. }
    destruct (IH st1 Hk1 Hrun) as (Hk' & Hc' & Hm' & Ht').
    split; [exact Hk'|]. split; [congruence|]. split; [congruence|]. tauto.
Qed.

(** X1. [init] logs the missing-default error exactly when the default
    name is none of the eight configured names, and in either case leaves
    an arbiter with eight controllers whose current controller is the
    default one, in mode -1, with no command time. *)
Theorem init_reports_missing_default (p : Params) :
  (RosError "Default controller not present in the provided controllers!"
     ∈ trace (init p)
   ↔ default_controller_name_ (init p) ∉ all_controllers_ (init p))
  ∧ length (all_controllers_ (init p)) = 8%nat
  ∧ current_controller_name_ (init p) = default_controller_name_ (init p)
  ∧ current_mode_ (init p) = -1
  ∧ switch_requests (init p) = [].
Proof.
  split; [|repeat split].
  - unfold init. cbn [trace default_controller_name_ all_controllers_].
    set (dflt := default "position_joint_trajectory_controller" (p_default_controller p)).
    match goal with
    | |- context [existsb ?f ?l] =>
        destruct (existsb f l) eqn:Hex; set (names := l) in *
    end.
    + apply existsb_exists in Hex as (c & Hin & Heq).
      apply String.eqb_eq in Heq. subst c. apply list_elem_of_In in Hin.
      split; [|intros Hnot; contradiction].
      simpl. rewrite list_elem_of_singleton. discriminate.
    + split; [intros _|intros _; simpl; by left].
      intros Hin. apply list_elem_of_In in Hin.
      assert (Hex' : existsb (fun c => String.eqb c dflt) names = true).
      { apply existsb_exists. exists dflt. split; [exact Hin | apply String.eqb_refl]. }
      congruence.
  - unfold switch_requests, init. cbn [trace].
    match goal with
    | |- context [existsb ?f ?l] => destruct (existsb f l)
    end; reflexivity.
Qed.

(** X2. Along every completed run of callbacks after [init], the eight
    configured names, the default name, [all_controllers_] and the mode
    map stay as [init] left them, and a timeout between 0 and one second
    is stored. *)
Theorem run_callbacks_configuration (p : Params) (cbs : list Callback) (st : State) :
  run_callbacks cbs (init p) = Done st →
  configuration st = configuration (init p)
  ∧ length (all_controllers_ st) = 8%nat
  ∧ controller_name_to_mode_map_ st = controller_name_to_mode_map_ (init p)
  ∧ timeout_stored st.
Proof.
  intros Hrun.
  destruct (run_callbacks_frame cbs (init p) st (init_keys_registered p) Hrun)
    as (_ & Hc & Hm & Ht).
  split; [exact Hc|]. split; [|split; [exact Hm | exact (Ht (init_timeout_stored p))]].
  unfold configuration in Hc.
  assert (all_controllers_ st = all_controllers_ (init p)) as -> by congruence.
  reflexivity.
Qed.

(** X3. When -1 is none of the four mode constants, every completed run
    of callbacks after [init] ends in a state whose current mode, if it
    is one of the four recognized modes, is the mode of the current
    controller. *)
Theorem run_callbacks_mode_consistent (p : Params) (cbs : list Callback) (st : State) :
  (-1) ∉ recognized_modes →
  run_callbacks cbs (init p) = Done st →
  current_mode_ st ∈ recognized_modes →
  mapped_controller st (current_mode_ st) (current_controller_name_ st).
Proof.
  intros Hneg Hrun.
  assert (Hinit : mode_consistent (init p)) by (intros Hrec; simpl in Hrec; contradiction).
  destruct (run_callbacks_keeps cbs (init p) st (init_keys_registered p)
              (init_map_sound p Hneg) Hinit Hrun) as (_ & _ & Hcons).
  exact Hcons.
Qed.

(** The tick of a timed-out arbiter whose default name is carried by
    exactly one of eight entries: the request issued and what is left
    unchanged. *)
Lemma commandTimeoutCheck_timed_out st now t d :
  length (all_controllers_ st) = 8%nat →
  default_count st = 1%nat →
  box_cmd_timeout_ st = Some t →
  box_timeout_length_ st = Some d →
  d < now - t →
  current_controller_name_ st ≠ default_controller_name_ st →
  ∃ stop st',
    commandTimeoutCheck now st = Done st'
    ∧ split_by_default (default_controller_name_ st) (all_controllers_ st)
      = ([default_controller_name_ st], stop)
    ∧ switch_requests st'
      = switch_requests st ++ [SwitchRequest [default_controller_name_ st] stop]
    ∧ configuration st' = configuration st
    ∧ box_cmd_timeout_ st' = Some t
    ∧ box_timeout_length_ st' = Some d
    ∧ (switchController_reply (length (switch_requests st)) = false →
       current_mode_ st' = current_mode_ st
       ∧ current_controller_name_ st' = current_controller_name_ st
       ∧ controller_name_to_mode_map_ st' = controller_name_to_mode_map_ st)
    ∧ (switchController_reply (length (switch_requests st)) = true →
       current_controller_name_ st' = default_controller_name_ st
       ∧ current_mode_ st'
         = default 0 (controller_name_to_mode_map_ st !! default_controller_name_ st)).
Proof.
  intros Hlen Hcount Ht Hd Hlate Hne.
  destruct (split_by_default_once st Hlen Hcount)
    as (t0 & t1 & t2 & t3 & t4 & t5 & t6 & Hsplit & Hperm).
  exists [t0; t1; t2; t3; t4; t5; t6].
  unfold commandTimeoutCheck, command_timeout. rewrite Ht, Hd.
  destruct (Z.ltb_spec d (now - t)) as [_|]; [|lia].
  destruct (String.eqb_spec (current_controller_name_ st) (default_controller_name_ st))
    as [|_]; [done|].
  simpl andb. cbv iota.
  unfold switchToDefaultController. simpl default_controller_name_.
  simpl all_controllers_. rewrite Hsplit.
  unfold call_switchController. rewrite switch_requests_emit. simpl is_switch.
  cbv iota. rewrite app_nil_r.
  destruct (switchController_reply (length (switch_requests st))); simpl negb; cbv iota.
  - unfold index at 1. simpl lookup. cbv iota. rewrite bind_Done.
    unfold map_subscript. simpl controller_name_to_mode_map_.
    simpl current_controller_name_.
    destruct (controller_name_to_mode_map_ st !! default_controller_name_ st) as [v|];
      (eexists; split; [reflexivity|]; split; [reflexivity|]; split; [requests|];
       split; [reflexivity|]; split; [exact Ht|]; split; [exact Hd|];
       split; [intros Habs; discriminate Habs | intros _; split; reflexivity]).
  - eexists. split; [reflexivity|]. split; [reflexivity|]. split; [requests|].
    split; [reflexivity|]. split; [exact Ht|]. split; [exact Hd|].
    split; [intros _; repeat split | intros Habs; discriminate Habs].
Qed.

Lemma default_count_configuration st st' :
  configuration st' = configuration st → default_count st' = default_count st.
Proof.
  intros Hc. unfold default_count.
  assert (default_controller_name_ st' = default_controller_name_ st
          ∧ all_controllers_ st' = all_controllers_ st) as [-> ->]
    by (unfold configuration in Hc; split; congruence).
  reflexivity.
Qed.

(** X4. A revert refused by the controller manager leaves mode,
    controller, command time, timeout and mode map as they were, so the
    next tick finds the same timeout and issues the same request
    again. *)
Theorem commandTimeoutCheck_refused_retries (st : State) (now now' t d : Z) :
  length (all_controllers_ st) = 8%nat →
  default_count st = 1%nat →
  box_cmd_timeout_ st = Some t →
  box_timeout_length_ st = Some d →
  d < now - t →
  now ≤ now' →
  current_controller_name_ st ≠ default_controller_name_ st →
  switchController_reply (length (switch_requests st)) = false →
  ∃ stop st' st'',
    commandTimeoutCheck now st = Done st'
    ∧ current_mode_ st' = current_mode_ st
    ∧ current_controller_name_ st' = current_controller_name_ st
    ∧ controller_name_to_mode_map_ st' = controller_name_to_mode_map_ st
    ∧ commandTimeoutCheck now' st' = Done st''
    ∧ switch_requests st''
      = switch_requests st
        ++ [SwitchRequest [default_controller_name_ st] stop;
            SwitchRequest [default_controller_name_ st] stop].
Proof.
  intros Hlen Hcount Ht Hd Hlate Hlater Hne Hreply.
  destruct (commandTimeoutCheck_timed_out st now t d Hlen Hcount Ht Hd Hlate Hne)
    as (stop & st' & Hrun & Hsplit & Hreq & Hc & Ht' & Hd' & Hrefused & _).
  destruct (Hrefused Hreply) as (Hmode & Hname & Hmap).
  assert (Hall : all_controllers_ st' = all_controllers_ st
                 ∧ default_controller_name_ st' = default_controller_name_ st)
    by (unfold configuration in Hc; split; congruence).
  destruct Hall as [Hall Hdflt].
  destruct (commandTimeoutCheck_timed_out st' now' t d) as
    (stop' & st'' & Hrun' & Hsplit' & Hreq' & _); try assumption; try lia.
  { by rewrite Hall. }
  { by rewrite (default_count_configuration st st' Hc). }
  { by rewrite Hname, Hdflt. }
  rewrite Hall, Hdflt, Hsplit in Hsplit'. injection Hsplit' as <-.
  exists stop, st', st''.
  split; [exact Hrun|]. split; [exact Hmode|]. split; [exact Hname|].
  split; [exact Hmap|]. split; [exact Hrun'|].
  rewrite Hreq', Hreq, Hdflt, <- app_assoc. reflexivity.
Qed.

Lemma switch_report_short start stop :
  (length stop < 7)%nat → switch_report start stop = Fault.
Proof.
  intros Hlen. unfold switch_report.
  destruct start as [|s0 start]; [reflexivity|].
  destruct stop as [|t0 [|t1 [|t2 [|t3 [|t4 [|t5 [|t6 stop]]]]]]];
    try reflexivity.
  simpl in Hlen. lia.
Qed.

(** X5. With eight entries in [all_controllers_] and a controller
    manager that grants the request, [switchToDefaultController]
    completes exactly when one entry carries the default name: with none
    it reads [start_controllers[0]] of an empty vector, with two or more
    it reads [stop_controllers[6]] of a vector of at most six names. *)
Theorem switchToDefaultController_completes_iff (st : State) :
  length (all_controllers_ st) = 8%nat →
  switchController_reply (length (switch_requests st)) = true →
  (switchToDefaultController st ≠ Fault ↔ default_count st = 1%nat).
Proof.
  intros Hlen Hreply. split.
  - intros Hdone. unfold default_count.
    pose proof (filter_split_length
                  (fun c => String.eqb c (default_controller_name_ st))
                  (all_controllers_ st)) as Hsum.
    revert Hdone. unfold switchToDefaultController.
    rewrite split_by_default_filter.
    unfold call_switchController. rewrite Hreply. simpl negb. cbv iota.
    destruct (List.filter (fun c => String.eqb c (default_controller_name_ st))
                          (all_controllers_ st)) as [|s0 [|s1 start]];
      [intros Hd; by contradiction Hd | reflexivity |].
    intros Hdone. exfalso. apply Hdone.
    unfold index at 1. simpl lookup. cbv iota. rewrite bind_Done.
    destruct (map_subscript _ _) as [m map'].
    rewrite switch_report_short; [reflexivity|].
    simpl in Hsum. lia.
  - intros Hcount.
    destruct (split_by_default_once st Hlen Hcount)
      as (t0 & t1 & t2 & t3 & t4 & t5 & t6 & Hsplit & _).
    unfold switchToDefaultController. rewrite Hsplit.
    unfold call_switchController. rewrite Hreply. simpl negb. cbv iota.
    unfold index at 1. simpl lookup. cbv iota. rewrite bind_Done.
    destruct (map_subscript _ _) as [m map']. discriminate.
Qed.

(** X6. A command that repeats the current mode stores its instant as
    the command time without any switch request or log line, and no tick
    up to the stored timeout after that instant reverts. *)
Theorem jointCommandCallback_keep_alive (st : State) (now d tick : Z) :
  box_timeout_length_ st = Some d →
  tick - now ≤ d →
  ∃ st',
    jointCommandCallback (current_mode_ st) now st = Done st'
    ∧ box_cmd_timeout_ st' = Some now
    ∧ trace st' = trace st
    ∧ current_controller_name_ st' = current_controller_name_ st
    ∧ commandTimeoutCheck tick st' = Done st'.
Proof.
  intros Hd Hearly. exists (set_box_cmd_timeout (Some now) st).
  split.
  - unfold jointCommandCallback, switchControllers. rewrite Z.eqb_refl. reflexivity.
  - repeat split.
    unfold commandTimeoutCheck, command_timeout. simpl. rewrite Hd.
    destruct (Z.ltb_spec d (tick - now)); [lia|]. reflexivity.
Qed.

(** X7. A command for another mode that is unrecognized, or whose switch
    the controller manager refuses, completes without storing a command
    time: mode, controller, command time and timeout stay as they were,
    and the watchdog condition is the same at every instant. *)
Theorem jointCommandCallback_rejected_keeps_watchdog
        (st : State) (mode now : Z) :
  current_mode_ st ≠ mode →
  mode ∉ recognized_modes
  ∨ switchController_reply (length (switch_requests st)) = false →
  ∃ st',
    jointCommandCallback mode now st = Done st'
    ∧ current_mode_ st' = current_mode_ st
    ∧ current_controller_name_ st' = current_controller_name_ st
    ∧ box_cmd_timeout_ st' = box_cmd_timeout_ st
    ∧ box_timeout_length_ st' = box_timeout_length_ st
    ∧ ∀ tick, command_timeout tick st' = command_timeout tick st.
Proof.
  intros Hne Hcase. unfold jointCommandCallback, switchControllers.
  destruct (Z.eqb_spec (current_mode_ st) mode) as [|_]; [done|].
  simpl negb. cbv iota.
  destruct (select_controllers mode st) as [[start stop]|] eqn:Hsel.
  - destruct Hcase as [Hunk|Hreply].
    + rewrite (unrecognized_select _ _ Hunk) in Hsel. discriminate.
    + unfold call_switchController. rewrite Hreply. simpl.
      eexists. split; [reflexivity|]. repeat split.
  - eexists. split; [reflexivity|]. repeat split.
Qed.

(** X8. The timeout message stores its value clamped between 0 and one
    second (0 for a negative value, one second for a larger one, the
    value itself otherwise), touches no other member and issues no
    switch request. *)
Theorem jointCommandTimeoutCallback_clamps (data : Z) (st : State) :
  let st' := jointCommandTimeoutCallback data st in
  box_timeout_length_ st'
  = Some (if data <? 0 then 0 else if 1000000000 <? data then 1000000000 else data)
  ∧ current_mode_ st' = current_mode_ st
  ∧ current_controller_name_ st' = current_controller_name_ st
  ∧ box_cmd_timeout_ st' = box_cmd_timeout_ st
  ∧ controller_name_to_mode_map_ st' = controller_name_to_mode_map_ st
  ∧ configuration st' = configuration st
  ∧ switch_requests st' = switch_requests st.
Proof.
  simpl. repeat split.
  - unfold clamp_timeout.
    destruct (Z.ltb_spec data 0); destruct (Z.ltb_spec 1000000000 data);
      f_equal; lia.
  - unfold switch_requests. simpl. rewrite List.filter_app. simpl.
    by rewrite app_nil_r.
Qed.

(** A granted switch to a recognized mode, as a state. *)
Lemma switchControllers_granted st mode :
  mode ∈ recognized_modes →
  current_mode_ st ≠ mode →
  switchController_reply (length (switch_requests st)) = true →
  ∃ name stop st',
    select_controllers mode st = Some ([name], stop)
    ∧ mapped_controller st mode name
    ∧ switchControllers mode st = Done (true, st')
    ∧ current_mode_ st' = mode
    ∧ current_controller_name_ st' = name
    ∧ switch_requests st' = switch_requests st ++ [SwitchRequest [name] stop]
    ∧ configuration st' = configuration st
    ∧ box_timeout_length_ st' = box_timeout_length_ st.
Proof.
  intros Hrec Hne Hreply.
  assert (Hsel : ∃ start stop, select_controllers mode st = Some (start, stop)).
  { destruct (select_controllers mode st) as [[start stop]|] eqn:Hsel; [eauto|].
    exfalso. revert Hsel. unfold select_controllers, recognized_modes in *.
    rewrite !elem_of_cons in Hrec.
    destruct Hrec as [->|[->|[->|[->|Hnil]]]]; [| | | |by apply elem_of_nil in Hnil];
      repeat match goal with
             | |- context [Z.eqb ?a ?b] => destruct (Z.eqb_spec a b); try discriminate
             end; congruence. }
  destruct Hsel as (start & stop & Hsel).
  destruct (select_controllers_mapped _ _ _ _ Hsel) as (name & -> & Hmap & _ & Hlen).
  exists name, stop. unfold switchControllers.
  destruct (Z.eqb_spec (current_mode_ st) mode) as [|_]; [done|].
  simpl negb. cbv iota. rewrite Hsel.
  unfold call_switchController. rewrite Hreply. simpl negb. cbv iota.
  destruct stop as [|t0 [|t1 [|t2 [|t3 [|t4 [|t5 [|t6 [|]]]]]]]]; simpl in Hlen; try lia.
  eexists. split; [reflexivity|]. split; [exact Hmap|]. split; [reflexivity|].
  repeat split. requests.
Qed.

(** X9. The end-to-end scenario: after [init] with a default name carried
    by exactly one configured controller, a granted command for a
    recognized mode whose controller is not the default one, followed by
    a tick later than the stored timeout and a granted revert, leaves the
    default controller current; exactly two switch requests were issued,
    the first starting the controller of the mode, the second starting
    the default controller. *)
Theorem command_then_timeout_reverts (p : Params) (mode t0 t1 d : Z) :
  default_count (init p) = 1%nat →
  mode ∈ recognized_modes →
  mode ≠ -1 →
  (∀ name', mapped_controller (init p) mode name' →
            name' ≠ default_controller_name_ (init p)) →
  box_timeout_length_ (init p) = Some d →
  d < t1 - t0 →
  switchController_reply 0 = true →
  switchController_reply 1 = true →
  ∃ name' stop stop' st,
    run_callbacks [JointCommand mode t0; TimerEvent t1] (init p) = Done st
    ∧ mapped_controller (init p) mode name'
    ∧ switch_requests st
      = [SwitchRequest [name'] stop;
         SwitchRequest [default_controller_name_ (init p)] stop']
    ∧ current_controller_name_ st = default_controller_name_ (init p)
    ∧ box_cmd_timeout_ st = Some t0.
Proof.
  intros Hcount Hrec Hmode Hother Hd Hlate Hr0 Hr1.
  assert (Hreq0 : switch_requests (init p) = []).
  { unfold switch_requests, init. cbn [trace].
    match goal with
    | |- context [existsb ?f ?l] => destruct (existsb f l)
    end; reflexivity. }
  destruct (switchControllers_granted (init p) mode Hrec) as
    (name' & stop & st1 & _ & Hmap & Hsw & Hm1 & Hn1 & Hreq1 & Hc1 & Ht1).
  { simpl. congruence. }
  { by rewrite Hreq0. }
  set (st2 := set_box_cmd_timeout (Some t0) st1).
  assert (Hall : all_controllers_ st2 = all_controllers_ (init p)
                 ∧ default_controller_name_ st2 = default_controller_name_ (init p)).
  { unfold configuration in Hc1.
    split; [change (all_controllers_ st1 = all_controllers_ (init p))
           |change (default_controller_name_ st1 = default_controller_name_ (init p))];
      congruence. }
  destruct Hall as [Hall Hdflt].
  destruct (commandTimeoutCheck_timed_out st2 t1 t0 d) as
    (stop' & st & Hrun & _ & Hreq2 & _ & Hstamp & _ & _ & Hgranted).
  { by rewrite Hall. }
  { unfold default_count in *. by rewrite Hall, Hdflt. }
  { reflexivity. }
  { change (box_timeout_length_ st1 = Some d). by rewrite Ht1. }
  { exact Hlate. }
  { rewrite Hdflt. change (current_controller_name_ st1 ≠ default_controller_name_ (init p)).
    rewrite Hn1. by apply Hother. }
  exists name', stop, stop', st.
  split.
  - simpl. rewrite (jointCommandCallback_accepted _ _ _ _ Hsw), bind_Done.
    fold st2. rewrite Hrun. reflexivity.
  - split; [exact Hmap|].
    assert (Hreq_st2 : switch_requests st2 = [SwitchRequest [name'] stop]).
    { unfold st2. rewrite switch_requests_set_box_cmd_timeout, Hreq1, Hreq0.
      reflexivity. }
    split; [by rewrite Hreq2, Hreq_st2, Hdflt|].
    destruct Hgranted as [Hcur _]; [by rewrite Hreq_st2|].
    split; [by rewrite Hcur, Hdflt | exact Hstamp].
Qed.

End WithEnvironment.

(** ** Evaluation on concrete configurations *)

(** A parameter server without any of the keys: every name takes its
    built-in value and the timeout is 0.2 s. *)
Definition no_params : Params :=
  mkParams None None None None None None None None None None.

(** As [no_params], with a default controller that is not one of the
    eight configured names. *)
Definition params_unknown_default : Params :=
  mkParams None None None None None None None None
           (Some "missing_controller") None.

(** A controller manager that grants every request. *)
Definition granting : nat → bool := fun _ => true.

(** The state left by [cmd] when it completes; [st] otherwise. *)
Definition completed (cmd : State → Outcome State) (st : State) : State :=
  match cmd st with
  | Done st' => st'
  | Fault => st
  end.

(** The arbiter after [init] on [no_params] and one accepted command for
    mode 3 at instant 0, with mode constants 1, 2, 3, 4. *)
Definition commanded : State :=
  completed (jointCommandCallback 1 2 3 4 granting 3 0) (init 1 2 3 4 no_params).

Lemma switchControllers_success_witness :
  ∃ name stop st',
    mapped_controller 1 2 3 4 (init 1 2 3 4 no_params) 3 name
    ∧ switchControllers 1 2 3 4 granting 3 (init 1 2 3 4 no_params) = Done (true, st')
    ∧ current_mode_ st' = 3
    ∧ current_controller_name_ st' = name
    ∧ switch_requests st'
      = switch_requests (init 1 2 3 4 no_params) ++ [SwitchRequest [name] stop]
    ∧ length stop = 7%nat
    ∧ name :: stop ≡ₚ configured_controllers (init 1 2 3 4 no_params).
Proof.
  apply (switchControllers_success 1 2 3 4 granting (init 1 2 3 4 no_params) 3).
  - apply (bool_decide_unpack _). vm_compute. reflexivity.
  - apply (bool_decide_unpack _). vm_compute. reflexivity.
  - simpl. lia.
  - reflexivity.
Defined.

Lemma switchControllers_failure_witness :
  ∃ st',
    switchControllers 1 2 3 4 granting 7 (init 1 2 3 4 no_params) = Done (false, st')
    ∧ current_mode_ st' = current_mode_ (init 1 2 3 4 no_params)
    ∧ current_controller_name_ st' = current_controller_name_ (init 1 2 3 4 no_params)
    ∧ box_cmd_timeout_ st' = box_cmd_timeout_ (init 1 2 3 4 no_params)
    ∧ box_timeout_length_ st' = box_timeout_length_ (init 1 2 3 4 no_params)
    ∧ controller_name_to_mode_map_ st'
      = controller_name_to_mode_map_ (init 1 2 3 4 no_params).
Proof.
  apply (switchControllers_failure 1 2 3 4 granting (init 1 2 3 4 no_params) 7).
  - simpl. lia.
  - left. apply (bool_decide_unpack _). vm_compute. reflexivity.
Defined.

(** C4, as stated, fails: right after [init] the current mode is -1, so
    a request for mode -1, which is none of the four recognized modes,
    is answered with true. *)
Lemma switchControllers_unrecognized_counterexample :
  ((-1) ∉ recognized_modes 1 2 3 4)
  ∧ switchControllers 1 2 3 4 granting (-1) (init 1 2 3 4 no_params)
    = Done (true, init 1 2 3 4 no_params)
  ∧ ¬ ∃ st',
        switchControllers 1 2 3 4 granting (-1) (init 1 2 3 4 no_params)
        = Done (false, st').
Proof.
  split; [|split].
  - apply (bool_decide_unpack _). vm_compute. reflexivity.
  - reflexivity.
  - intros [st' Hst']. discriminate Hst'.
Qed.

Lemma commandTimeoutCheck_before_first_command_witness :
  commandTimeoutCheck granting 5000000000 (init 1 2 3 4 no_params)
  = Done (init 1 2 3 4 no_params).
Proof.
  apply (commandTimeoutCheck_before_first_command granting
           (init 1 2 3 4 no_params) 5000000000).
  reflexivity.
Defined.

Lemma commandTimeoutCheck_reverts_once_witness :
  ∃ stop st',
    commandTimeoutCheck granting 1000000000 commanded = Done st'
    ∧ switch_requests st'
      = switch_requests commanded
        ++ [SwitchRequest [default_controller_name_ commanded] stop]
    ∧ default_controller_name_ commanded :: stop ≡ₚ all_controllers_ commanded
    ∧ (granting (length (switch_requests commanded)) = true →
       current_controller_name_ st' = default_controller_name_ commanded
       ∧ ∀ later, run_ticks granting later st' = Done st').
Proof.
  apply (commandTimeoutCheck_reverts_once granting commanded 1000000000 0 200000000).
  - reflexivity.
  - reflexivity.
  - reflexivity.
  - reflexivity.
  - lia.
  - vm_compute. discriminate.
Defined.

(** C2, evaluated: with a default controller missing from the configured
    names, [init] completes and logs the error; one accepted command for
    mode 3 at instant 0 completes too; the watchdog tick one second later
    asks the controller manager to start nothing and stop all eight
    controllers and, the request being granted, reads
    [start_controllers[0]] of the empty vector. *)
Theorem commandTimeoutCheck_faults_without_default :
  let st0 := init 1 2 3 4 params_unknown_default in
  trace st0
  = [RosError "Default controller not present in the provided controllers!";
     RosInfo "MotionControllerInterface Initialised"]
  ∧ split_by_default (default_controller_name_ st0) (all_controllers_ st0)
    = ([], all_controllers_ st0)
  ∧ ∃ st1,
      jointCommandCallback 1 2 3 4 granting 3 0 st0 = Done st1
      ∧ current_controller_name_ st1 = "joint_torque_controller"
      ∧ box_cmd_timeout_ st1 = Some 0
      ∧ box_timeout_length_ st1 = Some 200000000
      ∧ commandTimeoutCheck granting 1000000000 st1 = Fault.
Proof.
  split; [reflexivity|]. split; [reflexivity|].
  exists (completed (jointCommandCallback 1 2 3 4 granting 3 0)
                    (init 1 2 3 4 params_unknown_default)).
  repeat split; vm_compute; reflexivity.
Qed.

(** As [no_params], with the joint position controller given the name
    that the trajectory controller and the default controller have by
    default: the default name is present, twice. *)
Definition params_duplicate_default : Params :=
  mkParams (Some "position_joint_trajectory_controller")
           None None None None None None None None None.

(** C6, evaluated: with the default name carried by two of the eight
    configured controllers, [init] logs no error; one accepted command
    for mode 3 at instant 0 leaves a command time, a timeout of 0.2 s and
    a current controller other than the default, so the three premises
    hold at the tick one second later.  That tick asks the controller
    manager to start the two entries and stop the six others and, the
    request being granted, reads [stop_controllers[6]] of a vector of six
    names. *)
Theorem commandTimeoutCheck_faults_with_duplicate_default :
  let st0 := init 1 2 3 4 params_duplicate_default in
  trace st0 = [RosInfo "MotionControllerInterface Initialised"]
  ∧ default_controller_name_ st0 ∈ all_controllers_ st0
  ∧ default_count st0 = 2%nat
  ∧ length (snd (split_by_default (default_controller_name_ st0) (all_controllers_ st0)))
    = 6%nat
  ∧ ∃ st1,
      jointCommandCallback 1 2 3 4 granting 3 0 st0 = Done st1
      ∧ box_cmd_timeout_ st1 = Some 0
      ∧ box_timeout_length_ st1 = Some 200000000
      ∧ 200000000 < 1000000000 - 0
      ∧ current_controller_name_ st1 = "joint_torque_controller"
      ∧ default_controller_name_ st1 = "position_joint_trajectory_controller"
      ∧ current_controller_name_ st1 ≠ default_controller_name_ st1
      ∧ commandTimeoutCheck granting 1000000000 st1 = Fault.
Proof.
  split; [reflexivity|]. split; [apply (bool_decide_unpack _); vm_compute; reflexivity|].
  split; [reflexivity|]. split; [reflexivity|].
  exists (completed (jointCommandCallback 1 2 3 4 granting 3 0)
                    (init 1 2 3 4 params_duplicate_default)).
  split; [vm_compute; reflexivity|]. split; [vm_compute; reflexivity|].
  split; [vm_compute; reflexivity|]. split; [lia|].
  split; [vm_compute; reflexivity|]. split; [vm_compute; reflexivity|].
  split; [vm_compute; discriminate|]. vm_compute. reflexivity.
Qed.

(** A controller manager that grants the first request only. *)
Definition granting_once : nat → bool := fun k => Nat.eqb k 0.

(** A run of the three callbacks: a command for mode 3 at instant 0, a
    tick one second later, a timeout message of five seconds. *)
Definition sample_run : list Callback :=
  [JointCommand 3 0; TimerEvent 1000000000; JointCommandTimeout 5000000000].

Lemma run_callbacks_configuration_witness :
  let st := completed (run_callbacks 1 2 3 4 granting sample_run) (init 1 2 3 4 no_params) in
  configuration st = configuration (init 1 2 3 4 no_params)
  ∧ length (all_controllers_ st) = 8%nat
  ∧ controller_name_to_mode_map_ st
    = controller_name_to_mode_map_ (init 1 2 3 4 no_params)
  ∧ timeout_stored st.
Proof.
  apply (run_callbacks_configuration 1 2 3 4 granting no_params sample_run).
  vm_compute. reflexivity.
Defined.

Lemma run_callbacks_mode_consistent_witness :
  let st := completed (run_callbacks 1 2 3 4 granting [JointCommand 3 0])
                      (init 1 2 3 4 no_params) in
  mapped_controller 1 2 3 4 st (current_mode_ st) (current_controller_name_ st).
Proof.
  apply (run_callbacks_mode_consistent 1 2 3 4 granting no_params [JointCommand 3 0]).
  - apply (bool_decide_unpack _). vm_compute. reflexivity.
  - vm_compute. reflexivity.
  - apply (bool_decide_unpack _). vm_compute. reflexivity.
Defined.

Lemma commandTimeoutCheck_refused_retries_witness :
  ∃ stop st' st'',
    commandTimeoutCheck granting_once 1000000000 commanded = Done st'
    ∧ current_mode_ st' = current_mode_ commanded
    ∧ current_controller_name_ st' = current_controller_name_ commanded
    ∧ controller_name_to_mode_map_ st' = controller_name_to_mode_map_ commanded
    ∧ commandTimeoutCheck granting_once 1010000000 st' = Done st''
    ∧ switch_requests st''
      = switch_requests commanded
        ++ [SwitchRequest [default_controller_name_ commanded] stop;
            SwitchRequest [default_controller_name_ commanded] stop].
Proof.
  apply (commandTimeoutCheck_refused_retries granting_once commanded
           1000000000 1010000000 0 200000000).
  - reflexivity.
  - reflexivity.
  - reflexivity.
  - reflexivity.
  - lia.
  - lia.
  - vm_compute. discriminate.
  - reflexivity.
Defined.

Lemma switchToDefaultController_completes_iff_witness :
  switchToDefaultController granting (init 1 2 3 4 no_params) ≠ Fault
  ↔ default_count (init 1 2 3 4 no_params) = 1%nat.
Proof.
  apply (switchToDefaultController_completes_iff granting (init 1 2 3 4 no_params));
    reflexivity.
Defined.

Lemma jointCommandCallback_keep_alive_witness :
  ∃ st',
    jointCommandCallback 1 2 3 4 granting (current_mode_ commanded) 500000000 commanded
    = Done st'
    ∧ box_cmd_timeout_ st' = Some 500000000
    ∧ trace st' = trace commanded
    ∧ current_controller_name_ st' = current_controller_name_ commanded
    ∧ commandTimeoutCheck granting 700000000 st' = Done st'.
Proof.
  apply (jointCommandCallback_keep_alive 1 2 3 4 granting commanded
           500000000 200000000 700000000).
  - reflexivity.
  - lia.
Defined.

Lemma jointCommandCallback_rejected_keeps_watchdog_witness :
  ∃ st',
    jointCommandCallback 1 2 3 4 granting 7 900000000 commanded = Done st'
    ∧ current_mode_ st' = current_mode_ commanded
    ∧ current_controller_name_ st' = current_controller_name_ commanded
    ∧ box_cmd_timeout_ st' = box_cmd_timeout_ commanded
    ∧ box_timeout_length_ st' = box_timeout_length_ commanded
    ∧ ∀ tick, command_timeout tick st' = command_timeout tick commanded.
Proof.
  apply (jointCommandCallback_rejected_keeps_watchdog 1 2 3 4 granting commanded
           7 900000000).
  - vm_compute. discriminate.
  - left. apply (bool_decide_unpack _). vm_compute. reflexivity.
Defined.

Lemma command_then_timeout_reverts_witness :
  ∃ name' stop stop' st,
    run_callbacks 1 2 3 4 granting [JointCommand 3 0; TimerEvent 1000000000]
                  (init 1 2 3 4 no_params) = Done st
    ∧ mapped_controller 1 2 3 4 (init 1 2 3 4 no_params) 3 name'
    ∧ switch_requests st
      = [SwitchRequest [name'] stop;
         SwitchRequest [default_controller_name_ (init 1 2 3 4 no_params)] stop']
    ∧ current_controller_name_ st = default_controller_name_ (init 1 2 3 4 no_params)
    ∧ box_cmd_timeout_ st = Some 0.
Proof.
  apply (command_then_timeout_reverts 1 2 3 4 granting no_params 3 0 1000000000 200000000).
  - reflexivity.
  - apply (bool_decide_unpack _). vm_compute. reflexivity.
  - lia.
  - intros name' [[H _]|[[_ ->]|[[H _]|[H _]]]]; try discriminate H.
    simpl. discriminate.
  - reflexivity.
  - lia.
  - reflexivity.
  - reflexivity.
Defined.

End Arbiter.

Module Impedance.

Local Open Scope R_scope.

(** ** Fixed-size Eigen values

    [Eigen::Matrix<double,6,6>] and [Eigen::Matrix<double,7,1>] are
    functions from indices to entries; only the entries inside the
    dimensions are meaningful. *)

Definition Matrix : Type := nat -> nat -> R.
Definition Vector : Type := nat -> R.

(** [M.setIdentity()] and [M.setZero()]. *)
Definition Identity : Matrix := fun i j => if Nat.eqb i j then 1 else 0.
Definition Zero : Matrix := fun _ _ => 0.

(** [M(i,j) = v] and [v[i] = x]. *)
Definition mset (M : Matrix) (i j : nat) (v : R) : Matrix :=
  fun i' j' => if Nat.eqb i' i && Nat.eqb j' j then v else M i' j'.
Definition vset (v : Vector) (i : nat) (x : R) : Vector :=
  fun i' => if Nat.eqb i' i then x else v i'.

(** [a * M] and [M + N]. *)
Definition mscale (a : R) (M : Matrix) : Matrix := fun i j => a * M i j.
Definition madd (M N : Matrix) : Matrix := fun i j => M i j + N i j.

(** [Eigen::Vector3d]. *)
Record Vector3 : Type := mkVector3 { v0 : R; v1 : R; v2 : R }.

Definition vscale3 (v : Vector3) (a : R) : Vector3 :=
  mkVector3 (v0 v * a) (v1 v * a) (v2 v * a).
Definition vdiv3 (v : Vector3) (a : R) : Vector3 :=
  mkVector3 (v0 v / a) (v1 v / a) (v2 v / a).
Definition norm3 (v : Vector3) : R :=
  sqrt (v0 v * v0 v + v1 v * v1 v + v2 v * v2 v).

(** [Eigen::Quaterniond]; [coeffs()] lists x, y, z, w. *)
Record Quaternion : Type := mkQuaternion { qx : R; qy : R; qz : R; qw : R }.

Definition coeffs_dot (a b : Quaternion) : R :=
  qx a * qx b + qy a * qy b + qz a * qz b + qw a * qw b.
Definition coeffs_opp (q : Quaternion) : Quaternion :=
  mkQuaternion (- qx q) (- qy q) (- qz q) (- qw q).
Definition vec (q : Quaternion) : Vector3 := mkVector3 (qx q) (qy q) (qz q).

(** Eigen's [Quaternion::conjugate], [Quaternion::inverse] (the zero
    quaternion when the squared norm is not positive) and the product
    [a * b]; library code outside the repository, written here on exact
    reals. *)
Definition conjugate (q : Quaternion) : Quaternion :=
  mkQuaternion (- qx q) (- qy q) (- qz q) (qw q).
Definition inverse (q : Quaternion) : Quaternion :=
  let n2 := coeffs_dot q q in
  if Rlt_dec 0 n2 then
    mkQuaternion (qx (conjugate q) / n2) (qy (conjugate q) / n2)
                 (qz (conjugate q) / n2) (qw (conjugate q) / n2)
  else mkQuaternion 0 0 0 0.
Definition qmul (a b : Quaternion) : Quaternion :=
  mkQuaternion
    (qw a * qx b + qx a * qw b + qy a * qz b - qz a * qy b)
    (qw a * qy b + qy a * qw b + qz a * qx b - qx a * qz b)
    (qw a * qz b + qz a * qw b + qx a * qy b - qy a * qx b)
    (qw a * qw b - qx a * qx b - qy a * qy b - qz a * qz b).

(** [std::atan2(y, x)] on exact reals. *)
Definition atan2 (y x : R) : R :=
  if Rlt_dec 0 x then atan (y / x)
  else if Rlt_dec x 0 then
    if Rle_dec 0 y then atan (y / x) + PI else atan (y / x) - PI
  else if Rlt_dec 0 y then PI / 2
  else if Rlt_dec y 0 then - (PI / 2)
  else 0.

(** [Eigen::AngleAxisd] and its construction from a quaternion
    (Eigen 3.3, [AngleAxis::operator=(const QuaternionBase&)]): the angle
    is [2 * atan2(n, |w|)] with [n] the norm of the vector part, and the
    axis is the vector part divided by [n], negated when [w < 0]; a
    vanishing vector part gives angle 0 about the x axis. *)
Record AngleAxis : Type := mkAngleAxis { angle : R; axis : Vector3 }.

Definition AngleAxis_of_Quaternion (q : Quaternion) : AngleAxis :=
  let n := norm3 (vec q) in
  if Req_dec_T n 0 then mkAngleAxis 0 (mkVector3 1 0 0)
  else
    mkAngleAxis (2 * atan2 n (Rabs (qw q)))
                (vdiv3 (vec q) (if Rlt_dec (qw q) 0 then - n else n)).

(** ** The message [franka_core_msgs::CartImpedanceStiffness]

    The message definition is not part of the sources; the fields are
    those the callback reads, under the prefix [msg_]. *)

Record CartImpedanceStiffness : Type := mkCartImpedanceStiffness {
  msg_use_flag : Z;
  msg_x : R; msg_y : R; msg_z : R; msg_xrot : R; msg_yrot : R; msg_zrot : R;
  msg_bx : R; msg_by : R; msg_bz : R; msg_bxrot : R; msg_byrot : R; msg_bzrot : R;
  msg_xx : R; msg_xy : R; msg_xz : R;
  msg_yx : R; msg_yy : R; msg_yz : R;
  msg_zx : R; msg_zy : R; msg_zz : R;
  msg_xxrot : R; msg_xyrot : R; msg_xzrot : R;
  msg_yxrot : R; msg_yyrot : R; msg_yzrot : R;
  msg_zxrot : R; msg_zyrot : R; msg_zzrot : R;
  msg_bxx : R; msg_bxy : R; msg_bxz : R;
  msg_byx : R; msg_byy : R; msg_byz : R;
  msg_bzx : R; msg_bzy : R; msg_bzz : R;
  msg_bxxrot : R; msg_bxyrot : R; msg_bxzrot : R;
  msg_byxrot : R; msg_byyrot : R; msg_byzrot : R;
  msg_bzxrot : R; msg_bzyrot : R; msg_bzzrot : R
}.

(** The six gains of the diagonal encoding, by axis. *)
Definition diagonal_gain (msg : CartImpedanceStiffness) (i : nat) : R :=
  match i with
  | 0%nat => msg_x msg
  | 1%nat => msg_y msg
  | 2%nat => msg_z msg
  | 3%nat => msg_xrot msg
  | 4%nat => msg_yrot msg
  | _ => msg_zrot msg
  end.

(** ** The gain members of [CartesianImpedanceController] *)

Record State : Type := mkState {
  cartesian_stiffness_target_ : Matrix;
  cartesian_damping_target_ : Matrix;
  nullspace_stiffness_target_ : R;
  cartesian_stiffness_ : Matrix;
  cartesian_damping_ : Matrix;
  nullspace_stiffness_ : R
}.

(** What [init] reads from the parameter server and the hardware. *)
Record InitInputs : Type := mkInitInputs {
  arm_id : option string;
  joint_names : option (list string);
  stiffness_gains : option (list R);
  handles_available : bool
}.

Section WithConstants.

(** The constants [filter_params_] and [delta_tau_max_] are initialised
    in the class declaration, which is not part of the sources. *)
Variables filter_params_ delta_tau_max_ : R.

(** *** [CartesianImpedanceController::init]

    [obj] is the controller as constructed; the result is the value
    returned and the controller afterwards.  Every [return false]
    precedes the first assignment to a gain member. *)

Definition init_gains (stiffness_gains_ : list R) (obj : State) : State :=
  let targets :=
    fold_left
      (fun (acc : Matrix * Matrix) i =>
         (mset (fst acc) i i (nth i stiffness_gains_ 0),
          mset (snd acc) i i (2 * sqrt (nth i stiffness_gains_ 0))))
      (seq 0 6) (Identity, Identity) in
  mkState (fst targets) (snd targets) 0 Zero Zero (nullspace_stiffness_ obj).

Definition init (inp : InitInputs) (obj : State) : bool * State :=
  match arm_id inp, joint_names inp, stiffness_gains inp with
  | Some _, Some names, Some stiffness_gains_ =>
      if Nat.eqb (length names) 7 && Nat.eqb (length stiffness_gains_) 6
         && handles_available inp
      then (true, init_gains stiffness_gains_ obj)
      else (false, obj)
  | _, _, _ => (false, obj)
  end.

(** *** [CartesianImpedanceController::stiffnessParamCallback] *)

Definition stiffnessParamCallback (msg : CartImpedanceStiffness) (st : State) : State :=
  let K := Identity in
  let D := Identity in
  if (msg_use_flag msg =? 0)%Z then
    let K := mset K 0 0 (msg_x msg) in
    let K := mset K 1 1 (msg_y msg) in
    let K := mset K 2 2 (msg_z msg) in
    let K := mset K 3 3 (msg_xrot msg) in
    let K := mset K 4 4 (msg_yrot msg) in
    let K := mset K 5 5 (msg_zrot msg) in
    if Req_dec_T (msg_bx msg) (-1) then
      let D := mset D 0 0 (1 / 2 * sqrt (msg_x msg)) in
      let D := mset D 1 1 (1 / 2 * sqrt (msg_y msg)) in
      let D := mset D 2 2 (1 / 2 * sqrt (msg_z msg)) in
      let D := mset D 3 3 (1 / 2 * sqrt (msg_xrot msg)) in
      let D := mset D 4 4 (1 / 2 * sqrt (msg_yrot msg)) in
      let D := mset D 5 5 (1 / 2 * sqrt (msg_zrot msg)) in
      mkState K D (nullspace_stiffness_target_ st)
              (cartesian_stiffness_ st) (cartesian_damping_ st) (nullspace_stiffness_ st)
    else
      let D := mset D 0 0 (msg_bx msg) in
      let D := mset D 1 1 (msg_by msg) in
      let D := mset D 2 2 (msg_bz msg) in
      let D := mset D 3 3 (msg_bxrot msg) in
      let D := mset D 4 4 (msg_byrot msg) in
      let D := mset D 5 5 (msg_bzrot msg) in
      mkState K D (nullspace_stiffness_target_ st)
              (cartesian_stiffness_ st) (cartesian_damping_ st) (nullspace_stiffness_ st)
  else
    let K := mset K 0 0 (msg_xx msg) in
    let K := mset K 0 1 (msg_xy msg) in
    let K := mset K 0 2 (msg_xz msg) in
    let K := mset K 1 0 (msg_yx msg) in
    let K := mset K 1 1 (msg_yy msg) in
    let K := mset K 1 2 (msg_yz msg) in
    let K := mset K 2 0 (msg_zx msg) in
    let K := mset K 2 1 (msg_zy msg) in
    let K := mset K 2 2 (msg_zz msg) in
    let K := mset K 3 3 (msg_xxrot msg) in
    let K := mset K 3 4 (msg_xyrot msg) in
    let K := mset K 3 5 (msg_xzrot msg) in
    let K := mset K 4 3 (msg_yxrot msg) in
    let K := mset K 4 4 (msg_yyrot msg) in
    let K := mset K 4 5 (msg_yzrot msg) in
    let K := mset K 5 3 (msg_zxrot msg) in
    let K := mset K 5 4 (msg_zyrot msg) in
    let K := mset K 5 5 (msg_zzrot msg) in
    let D := mset D 0 0 (msg_bxx msg) in
    let D := mset D 0 1 (msg_bxy msg) in
    let D := mset D 0 2 (msg_bxz msg) in
    let D := mset D 1 0 (msg_byx msg) in
    let D := mset D 1 1 (msg_byy msg) in
    let D := mset D 1 2 (msg_byz msg) in
    let D := mset D 2 0 (msg_bzx msg) in
    let D := mset D 2 1 (msg_bzy msg) in
    let D := mset D 2 2 (msg_bzz msg) in
    let D := mset D 3 3 (msg_bxxrot msg) in
    let D := mset D 3 4 (msg_bxyrot msg) in
    let D := mset D 3 5 (msg_bxzrot msg) in
    let D := mset D 4 3 (msg_byxrot msg) in
    let D := mset D 4 4 (msg_byyrot msg) in
    let D := mset D 4 5 (msg_byzrot msg) in
    let D := mset D 5 3 (msg_bzxrot msg) in
    let D := mset D 5 4 (msg_bzyrot msg) in
    let D := mset D 5 5 (msg_bzzrot msg) in
    mkState K D (nullspace_stiffness_target_ st)
            (cartesian_stiffness_ st) (cartesian_damping_ st) (nullspace_stiffness_ st).

(** *** [CartesianImpedanceController::update] *)

(** The orientation error: the measured orientation is negated when its
    coefficient dot product with [orientation_d_] is negative, then the
    difference quaternion is turned into axis times angle. *)
Definition sign_corrected (orientation_d_ orientation : Quaternion) : Quaternion :=
  if Rlt_dec (coeffs_dot orientation_d_ orientation) 0 then coeffs_opp orientation
  else orientation.

Definition error_quaternion (orientation_d_ orientation : Quaternion) : Quaternion :=
  qmul (sign_corrected orientation_d_ orientation) (inverse orientation_d_).

Definition orientation_error (orientation_d_ orientation : Quaternion) : Vector3 :=
  let error_quaternion_angle_axis :=
    AngleAxis_of_Quaternion (error_quaternion orientation_d_ orientation) in
  vscale3 (axis error_quaternion_angle_axis) (angle error_quaternion_angle_axis).

(** The filtering of the three gains at the end of the cycle. The
    torque computed before it reads the gain members and writes none. *)
Definition update_gains (st : State) : State :=
  mkState (cartesian_stiffness_target_ st) (cartesian_damping_target_ st)
          (nullspace_stiffness_target_ st)
          (madd (mscale filter_params_ (cartesian_stiffness_target_ st))
                (mscale (1 - filter_params_) (cartesian_stiffness_ st)))
          (madd (mscale filter_params_ (cartesian_damping_target_ st))
                (mscale (1 - filter_params_) (cartesian_damping_ st)))
          (filter_params_ * nullspace_stiffness_target_ st
           + (1 - filter_params_) * nullspace_stiffness_ st).

(** *** [CartesianImpedanceController::saturateTorqueRate] *)

Definition saturateTorqueRate (tau_d_calculated tau_J_d : Vector) : Vector :=
  fold_left
    (fun (tau_d_saturated : Vector) i =>
       let difference := tau_d_calculated i - tau_J_d i in
       vset tau_d_saturated i
            (tau_J_d i + Rmax (Rmin difference delta_tau_max_) (- delta_tau_max_)))
    (seq 0 7) (fun _ => 0).

(** ** Runs of the controller: stiffness messages interleaved with
       control cycles. *)

Inductive Event : Type :=
| StiffnessMessage (msg : CartImpedanceStiffness)
| ControlCycle.

Definition handle (st : State) (e : Event) : State :=
  match e with
  | StiffnessMessage msg => stiffnessParamCallback msg st
  | ControlCycle => update_gains st
  end.

Definition run (events : list Event) (st : State) : State :=
  fold_left handle events st.

Fixpoint cycles (events : list Event) : nat :=
  match events with
  | [] => 0
  | ControlCycle :: rest => S (cycles rest)
  | StiffnessMessage _ :: rest => cycles rest
  end.

End WithConstants.

(** ** Concrete inputs used for evaluation *)

(** A controller whose gain members are all zero. *)
Definition zero_gains : State := mkState Zero Zero 0 Zero Zero 0.

(** A controller as constructed, with a filtered nullspace stiffness of 20. *)
Definition constructed : State := mkState Zero Zero 0 Zero Zero 20.

(** A diagonal-mode message: gain 4 on every axis, no explicit damping. *)
Definition diagonal_message : CartImpedanceStiffness :=
  mkCartImpedanceStiffness 0
    4 4 4 4 4 4
    (-1) 0 0 0 0 0
    0 0 0 0 0 0 0 0 0
    0 0 0 0 0 0 0 0 0
    0 0 0 0 0 0 0 0 0
    0 0 0 0 0 0 0 0 0.

Definition valid_inputs : InitInputs :=
  mkInitInputs (Some "panda"%string)
    (Some ["panda_joint1"; "panda_joint2"; "panda_joint3"; "panda_joint4";
           "panda_joint5"; "panda_joint6"; "panda_joint7"]%string)
    (Some [200; 200; 200; 10; 10; 10])
    true.

(** ** Properties of the impedance controller *)

(** *** Torque-rate saturation *)

Lemma saturateTorqueRate_entry (delta_tau_max_ : R) (tau_d_calculated tau_J_d : Vector)
      (i : nat) :
  (i < 7)%nat ->
  saturateTorqueRate delta_tau_max_ tau_d_calculated tau_J_d i
  = tau_J_d i
    + Rmax (Rmin (tau_d_calculated i - tau_J_d i) delta_tau_max_) (- delta_tau_max_).
Proof.
  intros Hi.
  do 7 (destruct i as [|i]; [reflexivity|]).
  lia.
Qed.

Lemma clamp_bounded (d m : R) :
  0 <= m -> - m <= Rmax (Rmin d m) (- m) <= m.
Proof.
  intros Hm. unfold Rmax, Rmin.
  destruct (Rle_dec d m); destruct (Rle_dec _ (- m)); lra.
Qed.

Lemma clamp_inactive (d m : R) :
  Rabs d <= m -> Rmax (Rmin d m) (- m) = d.
Proof.
  intros Hd. unfold Rabs in Hd. unfold Rmax, Rmin.
  destruct (Rcase_abs d); destruct (Rle_dec d m); destruct (Rle_dec _ (- m)); lra.
Qed.

(** C7. With a non-negative [delta_tau_max_], every one of the seven
    components of the saturated torque is within [delta_tau_max_] of the
    previous commanded torque, and it is the computed torque whenever
    the computed torque is itself within [delta_tau_max_] of the previous
    one. *)
Theorem saturateTorqueRate_bounded (delta_tau_max_ : R)
        (tau_d_calculated tau_J_d : Vector) (i : nat) :
  0 <= delta_tau_max_ ->
  (i < 7)%nat ->
  Rabs (saturateTorqueRate delta_tau_max_ tau_d_calculated tau_J_d i - tau_J_d i)
  <= delta_tau_max_
  /\ (Rabs (tau_d_calculated i - tau_J_d i) <= delta_tau_max_ ->
      saturateTorqueRate delta_tau_max_ tau_d_calculated tau_J_d i
      = tau_d_calculated i).
Proof.
  intros Hmax Hi. rewrite saturateTorqueRate_entry by assumption. split.
  - pose proof (clamp_bounded (tau_d_calculated i - tau_J_d i) delta_tau_max_ Hmax).
    apply Rabs_le. lra.
  - intros Hin. rewrite clamp_inactive by assumption. lra.
Qed.

(** *** Stiffness messages *)

Lemma stiffnessParamCallback_diagonal_damping msg st i :
  msg_use_flag msg = 0%Z ->
  msg_bx msg = -1 ->
  (i < 6)%nat ->
  cartesian_damping_target_ (stiffnessParamCallback msg st) i i
  = 1 / 2 * sqrt (diagonal_gain msg i).
Proof.
  intros Hflag Hbx Hi. unfold stiffnessParamCallback.
  rewrite Hflag. simpl Z.eqb. cbv iota.
  destruct (Req_dec_T (msg_bx msg) (-1)) as [_|Hne]; [|contradiction].
  do 6 (destruct i as [|i]; [reflexivity|]).
  lia.
Qed.

Lemma update_gains_unit_filter st i j :
  cartesian_stiffness_ (update_gains 1 st) i j = cartesian_stiffness_target_ st i j
  /\ cartesian_damping_ (update_gains 1 st) i j = cartesian_damping_target_ st i j
  /\ nullspace_stiffness_ (update_gains 1 st) = nullspace_stiffness_target_ st.
Proof. simpl. unfold madd, mscale. repeat split; lra. Qed.

(** C1 (amended). A stiffness message in diagonal mode with six positive
    gains and the damping sentinel [bx = -1] stores, for each of the six
    axes, the damping target [1 / 2 * sqrt gain]; one filter step with
    coefficient 1 makes it the applied damping. *)
Theorem stiffnessParamCallback_default_damping
        (msg : CartImpedanceStiffness) (st : State) (i : nat) :
  msg_use_flag msg = 0%Z ->
  (forall j, (j < 6)%nat -> 0 < diagonal_gain msg j) ->
  msg_bx msg = -1 ->
  (i < 6)%nat ->
  cartesian_damping_target_ (stiffnessParamCallback msg st) i i
  = 1 / 2 * sqrt (diagonal_gain msg i)
  /\ cartesian_damping_ (update_gains 1 (stiffnessParamCallback msg st)) i i
     = 1 / 2 * sqrt (diagonal_gain msg i).
Proof.
  intros Hflag _ Hbx Hi.
  pose proof (stiffnessParamCallback_diagonal_damping msg st i Hflag Hbx Hi) as Hd.
  split; [exact Hd|].
  destruct (update_gains_unit_filter (stiffnessParamCallback msg st) i i) as (_ & -> & _).
  exact Hd.
Qed.

(** The nullspace stiffness target is not assigned by the callback. *)
Lemma stiffnessParamCallback_nullspace msg st :
  nullspace_stiffness_target_ (stiffnessParamCallback msg st)
  = nullspace_stiffness_target_ st
  /\ nullspace_stiffness_ (stiffnessParamCallback msg st) = nullspace_stiffness_ st.
Proof.
  unfold stiffnessParamCallback.
  destruct (msg_use_flag msg =? 0)%Z; [destruct (Req_dec_T _ _)|]; split; reflexivity.
Qed.

Lemma run_nullspace (filter_params_ : R) (events : list Event) (st : State) :
  nullspace_stiffness_target_ st = 0 ->
  nullspace_stiffness_target_ (run filter_params_ events st) = 0
  /\ nullspace_stiffness_ (run filter_params_ events st)
     = (1 - filter_params_) ^ cycles events * nullspace_stiffness_ st.
Proof.
  revert st. induction events as [|e events IH]; intros st Hzero.
  - simpl. split; [assumption | lra].
  - unfold run in *. simpl fold_left. destruct e as [msg|]; simpl handle.
    + destruct (stiffnessParamCallback_nullspace msg st) as [Ht Hn].
      destruct (IH (stiffnessParamCallback msg st)) as [IHt IHn]; [congruence|].
      split; [exact IHt|]. rewrite IHn, Hn. reflexivity.
    + destruct (IH (update_gains filter_params_ st)) as [IHt IHn]; [exact Hzero|].
      split; [exact IHt|]. rewrite IHn. simpl. rewrite Hzero. ring.
Qed.

Lemma init_nullspace inp obj st :
  init inp obj = (true, st) ->
  nullspace_stiffness_target_ st = 0
  /\ nullspace_stiffness_ st = nullspace_stiffness_ obj.
Proof.
  unfold init.
  destruct (arm_id inp); [|discriminate].
  destruct (joint_names inp); [|discriminate].
  destruct (stiffness_gains inp); [|discriminate].
  destruct (_ && _); [|discriminate].
  intros [= <-]. split; reflexivity.
Qed.

(** With a filter coefficient strictly between 0 and 2 the filtered
    nullspace stiffness converges to 0 in the number of control cycles. *)
Lemma nullspace_stiffness_converges
      (filter_params_ : R) (inp : InitInputs) (obj st : State) (eps : R) :
  init inp obj = (true, st) ->
  Rabs (1 - filter_params_) < 1 ->
  0 < eps ->
  exists N, forall events,
      (N <= cycles events)%nat ->
      Rabs (nullspace_stiffness_ (run filter_params_ events st)) < eps.
Proof.
  intros Hinit Hrate Heps. destruct (init_nullspace inp obj st Hinit) as [Ht Hn].
  destruct (Req_dec_T (nullspace_stiffness_ obj) 0) as [Hzero|Hnz].
  - exists 0%nat. intros events _.
    destruct (run_nullspace filter_params_ events st Ht) as [_ ->].
    rewrite Hn, Hzero, Rmult_0_r, Rabs_R0. exact Heps.
  - assert (Hpos : 0 < Rabs (nullspace_stiffness_ obj)) by (by apply Rabs_pos_lt).
    destruct (pow_lt_1_zero (1 - filter_params_) Hrate
                            (eps / Rabs (nullspace_stiffness_ obj)))
      as [N HN]; [by apply Rdiv_lt_0_compat|].
    exists N. intros events Hge.
    destruct (run_nullspace filter_params_ events st Ht) as [_ ->].
    rewrite Hn, Rabs_mult.
    specialize (HN (cycles events) Hge).
    apply (Rmult_lt_compat_r _ _ _ Hpos) in HN.
    replace (eps / Rabs (nullspace_stiffness_ obj) * Rabs (nullspace_stiffness_ obj))
      with eps in HN by (field; lra).
    exact HN.
Qed.

(** C10. After a successful [init], the stiffness callback (in either
    encoding) leaves the nullspace stiffness target as it is; along
    every run of stiffness messages and control cycles the target is 0
    and the filtered nullspace stiffness is the value it had at
    construction scaled by [1 - filter_params_] once per cycle: it stays
    0 when it was 0, and it converges to 0 in the number of cycles when
    [|1 - filter_params_| < 1]. *)
Theorem nullspace_stiffness_target_never_modified
        (filter_params_ : R) (inp : InitInputs) (obj st : State) (events : list Event) :
  init inp obj = (true, st) ->
  (forall msg st', nullspace_stiffness_target_ (stiffnessParamCallback msg st')
                   = nullspace_stiffness_target_ st')
  /\ nullspace_stiffness_target_ (run filter_params_ events st) = 0
  /\ nullspace_stiffness_ (run filter_params_ events st)
     = (1 - filter_params_) ^ cycles events * nullspace_stiffness_ obj
  /\ (nullspace_stiffness_ obj = 0 ->
      nullspace_stiffness_ (run filter_params_ events st) = 0)
  /\ (Rabs (1 - filter_params_) < 1 ->
      forall eps, 0 < eps ->
      exists N, forall events',
          (N <= cycles events')%nat ->
          Rabs (nullspace_stiffness_ (run filter_params_ events' st)) < eps).
Proof.
  intros Hinit. destruct (init_nullspace inp obj st Hinit) as [Ht Hn].
  destruct (run_nullspace filter_params_ events st Ht) as [Rt Rn].
  split; [intros msg st'; apply stiffnessParamCallback_nullspace|].
  split; [exact Rt|]. rewrite Rn, Hn. split; [reflexivity|].
  split; [intros ->; ring|].
  intros Hrate eps Heps.
  exact (nullspace_stiffness_converges filter_params_ inp obj st eps Hinit Hrate Heps).
Qed.

(** *** Orientation error *)

Lemma coeffs_opp_involutive q : coeffs_opp (coeffs_opp q) = q.
Proof. destruct q. unfold coeffs_opp. simpl. by rewrite !Ropp_involutive. Qed.

Lemma coeffs_dot_opp_r a b : coeffs_dot a (coeffs_opp b) = - coeffs_dot a b.
Proof. unfold coeffs_dot, coeffs_opp. simpl. ring. Qed.

(** Away from a vanishing dot product, a measured quaternion and its
    opposite are corrected to the same quaternion. *)
Lemma sign_corrected_opp orientation_d_ orientation :
  coeffs_dot orientation_d_ orientation <> 0 ->
  sign_corrected orientation_d_ (coeffs_opp orientation)
  = sign_corrected orientation_d_ orientation.
Proof.
  intros Hdot. unfold sign_corrected. rewrite coeffs_dot_opp_r.
  destruct (Rlt_dec (- coeffs_dot orientation_d_ orientation) 0);
    destruct (Rlt_dec (coeffs_dot orientation_d_ orientation) 0);
    try lra; [apply coeffs_opp_involutive | reflexivity].
Qed.

Lemma norm3_nonneg v : 0 <= norm3 v.
Proof. apply sqrt_pos. Qed.

Lemma norm3_square v : norm3 v * norm3 v = v0 v * v0 v + v1 v * v1 v + v2 v * v2 v.
Proof. unfold norm3. apply sqrt_sqrt. nra. Qed.

Lemma atan2_first_quadrant y x :
  0 < y -> 0 <= x -> 0 < atan2 y x <= PI / 2.
Proof.
  intros Hy Hx. unfold atan2.
  destruct (Rlt_dec 0 x) as [Hpos|Hnpos].
  - pose proof (atan_bound (y / x)) as [_ Hup].
    pose proof (atan_increasing 0 (y / x) (Rdiv_lt_0_compat _ _ Hy Hpos)) as Hlow.
    rewrite atan_0 in Hlow. lra.
  - destruct (Rlt_dec x 0); [lra|].
    destruct (Rlt_dec 0 y); [|lra].
    pose proof PI_RGT_0. lra.
Qed.

(** The angle of the axis-angle form of any quaternion lies in [0, PI]. *)
Lemma AngleAxis_angle_range q :
  0 <= angle (AngleAxis_of_Quaternion q) <= PI.
Proof.
  unfold AngleAxis_of_Quaternion.
  destruct (Req_dec_T (norm3 (vec q)) 0) as [Hz|Hnz]; simpl.
  - pose proof PI_RGT_0. lra.
  - pose proof (norm3_nonneg (vec q)) as Hn.
    pose proof (atan2_first_quadrant (norm3 (vec q)) (Rabs (qw q))) as Hq.
    destruct Hq as [Hlow Hup]; [lra | apply Rabs_pos |]. lra.
Qed.

(** The axis of the axis-angle form has norm 1, so the norm of axis
    times angle is the angle. *)
Lemma AngleAxis_norm q :
  norm3 (vscale3 (axis (AngleAxis_of_Quaternion q)) (angle (AngleAxis_of_Quaternion q)))
  = angle (AngleAxis_of_Quaternion q).
Proof.
  pose proof (AngleAxis_angle_range q) as [Hlow _]. revert Hlow.
  unfold AngleAxis_of_Quaternion.
  destruct (Req_dec_T (norm3 (vec q)) 0) as [Hz|Hnz]; simpl; intros Hlow.
  - unfold norm3. simpl. replace (1 * 0 * (1 * 0) + 0 * 0 * (0 * 0) + 0 * 0 * (0 * 0))
      with 0 by ring. apply sqrt_0.
  - set (a := 2 * atan2 (norm3 (vec q)) (Rabs (qw q))) in *.
    set (n := if Rlt_dec (qw q) 0 then - norm3 (vec q) else norm3 (vec q)).
    assert (Hn0 : n <> 0) by (unfold n; destruct (Rlt_dec (qw q) 0); lra).
    assert (Hn2 : n * n = qx q * qx q + qy q * qy q + qz q * qz q).
    { pose proof (norm3_square (vec q)) as Hsq. simpl in Hsq.
      unfold n. destruct (Rlt_dec (qw q) 0); lra. }
    unfold norm3, vscale3, vdiv3. simpl.
    replace (qx q / n * a * (qx q / n * a) + qy q / n * a * (qy q / n * a)
             + qz q / n * a * (qz q / n * a))
      with (a * a * ((qx q * qx q + qy q * qy q + qz q * qz q) / (n * n)))
      by (field; exact Hn0).
    rewrite <- Hn2.
    replace (a * a * (n * n / (n * n))) with (a * a) by (field; exact Hn0).
    apply sqrt_square. exact Hlow.
Qed.

Lemma coeffs_dot_self_pos (d p : Quaternion) :
  coeffs_dot d p <> 0 -> 0 < coeffs_dot d d.
Proof.
  destruct d as [x y z w]. destruct p as [a b c e]. unfold coeffs_dot. simpl.
  intros Hdot.
  destruct (Rlt_dec 0 (x * x + y * y + z * z + w * w)) as [Hpos|Hnpos]; [exact Hpos|].
  exfalso. apply Hdot.
  assert (x = 0) as -> by nra. assert (y = 0) as -> by nra.
  assert (z = 0) as -> by nra. assert (w = 0) as -> by nra.
  ring.
Qed.

(** The scalar part of the difference with a non-zero target is the dot
    product of the two quaternions over the squared norm of the target. *)
Lemma qmul_inverse_scalar (p d : Quaternion) :
  0 < coeffs_dot d d ->
  qw (qmul p (inverse d)) = coeffs_dot d p / coeffs_dot d d.
Proof.
  destruct d as [x y z w]. destruct p as [a b c e].
  unfold inverse, coeffs_dot, conjugate, qmul. simpl. intros Hpos.
  destruct (Rlt_dec 0 (x * x + y * y + z * z + w * w)) as [_|]; [|contradiction].
  simpl. field. lra.
Qed.

(** What the correction decides: the quaternion that enters the
    difference has a non-negative dot product with the target. *)
Lemma sign_corrected_dot (orientation_d_ orientation : Quaternion) :
  coeffs_dot orientation_d_ (sign_corrected orientation_d_ orientation)
  = Rabs (coeffs_dot orientation_d_ orientation).
Proof.
  unfold sign_corrected.
  destruct (Rlt_dec (coeffs_dot orientation_d_ orientation) 0) as [Hneg|Hpos].
  - rewrite coeffs_dot_opp_r, Rabs_left by assumption. reflexivity.
  - rewrite Rabs_right by lra. reflexivity.
Qed.

(** A quaternion with a non-zero scalar part turns by less than PI. *)
Lemma AngleAxis_angle_lt_PI (e : Quaternion) :
  qw e <> 0 -> angle (AngleAxis_of_Quaternion e) < PI.
Proof.
  intros Hw. unfold AngleAxis_of_Quaternion.
  destruct (Req_dec_T (norm3 (vec e)) 0) as [Hz|Hnz]; simpl.
  - exact PI_RGT_0.
  - pose proof (Rabs_pos_lt (qw e) Hw) as Hpos.
    unfold atan2. destruct (Rlt_dec 0 (Rabs (qw e))); [|contradiction].
    pose proof (atan_bound (norm3 (vec e) / Rabs (qw e))) as [_ Hup]. lra.
Qed.

(** C8. For a measured orientation whose coefficient dot product with
    the target is negative, the correction replaces the measured
    quaternion by its opposite, whose dot product with the target is
    positive; the difference quaternion then has a positive scalar part
    and is the one obtained from the opposite measured quaternion, which
    stands for the same rotation.  Its axis-angle form has an angle in
    [0, PI), the orientation error (axis times angle) has norm below PI,
    and the two opposite measured quaternions give the same orientation
    error. *)
Theorem orientation_error_sign_corrected (orientation_d_ orientation : Quaternion) :
  coeffs_dot orientation_d_ orientation < 0 ->
  sign_corrected orientation_d_ orientation = coeffs_opp orientation
  /\ 0 < coeffs_dot orientation_d_ (sign_corrected orientation_d_ orientation)
  /\ 0 < qw (error_quaternion orientation_d_ orientation)
  /\ error_quaternion orientation_d_ (coeffs_opp orientation)
     = error_quaternion orientation_d_ orientation
  /\ 0 <= angle (AngleAxis_of_Quaternion (error_quaternion orientation_d_ orientation)) < PI
  /\ norm3 (orientation_error orientation_d_ orientation) < PI
  /\ orientation_error orientation_d_ (coeffs_opp orientation)
     = orientation_error orientation_d_ orientation.
Proof.
  intros Hdot.
  assert (Hflip : sign_corrected orientation_d_ orientation = coeffs_opp orientation).
  { unfold sign_corrected.
    destruct (Rlt_dec (coeffs_dot orientation_d_ orientation) 0); [reflexivity | lra]. }
  assert (Hpos : 0 < coeffs_dot orientation_d_ (sign_corrected orientation_d_ orientation)).
  { rewrite sign_corrected_dot. apply Rabs_pos_lt. lra. }
  assert (Hnorm : 0 < coeffs_dot orientation_d_ orientation_d_).
  { apply (coeffs_dot_self_pos orientation_d_ orientation). lra. }
  assert (Hw : 0 < qw (error_quaternion orientation_d_ orientation)).
  { unfold error_quaternion. rewrite qmul_inverse_scalar by exact Hnorm.
    apply Rdiv_lt_0_compat; assumption. }
  assert (Hsame : error_quaternion orientation_d_ (coeffs_opp orientation)
                  = error_quaternion orientation_d_ orientation).
  { unfold error_quaternion. rewrite sign_corrected_opp by lra. reflexivity. }
  pose proof (AngleAxis_angle_range (error_quaternion orientation_d_ orientation))
    as [Hlow _].
  pose proof (AngleAxis_angle_lt_PI (error_quaternion orientation_d_ orientation))
    as Hlt.
  split; [exact Hflip|]. split; [exact Hpos|]. split; [exact Hw|].
  split; [exact Hsame|]. split; [split; [exact Hlow | apply Hlt; lra]|]. split.
  - unfold orientation_error. rewrite AngleAxis_norm. apply Hlt. lra.
  - unfold orientation_error. rewrite Hsame. reflexivity.
Qed.

(** At a vanishing dot product no correction takes place, and the two
    opposite quaternions of a half turn give opposite errors of norm PI. *)
Lemma AngleAxis_half_turn (s : R) :
  s = 1 \/ s = -1 ->
  AngleAxis_of_Quaternion (mkQuaternion s 0 0 0) = mkAngleAxis PI (mkVector3 s 0 0).
Proof.
  intros Hs. unfold AngleAxis_of_Quaternion, norm3. simpl.
  replace (s * s + 0 * 0 + 0 * 0) with 1 by (destruct Hs; subst; ring).
  rewrite sqrt_1, Rabs_R0.
  destruct (Req_dec_T 1 0); [lra|].
  destruct (Rlt_dec 0 0); [lra|].
  unfold atan2. destruct (Rlt_dec 0 0); [lra|]. destruct (Rlt_dec 0 1); [|lra].
  unfold vdiv3. simpl. f_equal; [lra|]. f_equal; lra.
Qed.

Lemma orientation_error_half_turn :
  let orientation_d_ := mkQuaternion 0 0 0 1 in
  let orientation := mkQuaternion 1 0 0 0 in
  coeffs_dot orientation_d_ orientation = 0
  /\ orientation_error orientation_d_ orientation = mkVector3 PI 0 0
  /\ orientation_error orientation_d_ (coeffs_opp orientation) = mkVector3 (- PI) 0 0.
Proof.
  assert (Hinv : inverse (mkQuaternion 0 0 0 1) = mkQuaternion 0 0 0 1).
  { unfold inverse, coeffs_dot. simpl.
    destruct (Rlt_dec 0 (0 * 0 + 0 * 0 + 0 * 0 + 1 * 1)); [|lra].
    f_equal; field. }
  assert (He : forall s, error_quaternion (mkQuaternion 0 0 0 1) (mkQuaternion s 0 0 0)
                         = mkQuaternion s 0 0 0).
  { intros s. unfold error_quaternion, sign_corrected, coeffs_dot. simpl.
    destruct (Rlt_dec (0 * s + 0 * 0 + 0 * 0 + 1 * 0) 0); [lra|].
    rewrite Hinv. unfold qmul. simpl. f_equal; ring. }
  simpl. split; [unfold coeffs_dot; simpl; ring|].
  unfold orientation_error. split.
  - rewrite He, AngleAxis_half_turn by (left; reflexivity).
    unfold vscale3. simpl. f_equal; ring.
  - unfold coeffs_opp. simpl. rewrite !Ropp_0.
    rewrite He, AngleAxis_half_turn by (right; reflexivity).
    unfold vscale3. simpl. f_equal; ring.
Qed.

(** ** Evaluation on concrete inputs *)

Lemma sqrt_4 : sqrt 4 = 2.
Proof. replace 4 with (2 * 2) by lra. apply sqrt_square. lra. Qed.

Lemma diagonal_message_positive j :
  (j < 6)%nat -> 0 < diagonal_gain diagonal_message j.
Proof. intros Hj. do 6 (destruct j as [|j]; [simpl; lra|]). lia. Qed.

Lemma saturateTorqueRate_bounded_witness :
  Rabs (saturateTorqueRate 1 (fun _ => 5) (fun _ => 0) 0%nat - 0) <= 1
  /\ (Rabs (5 - 0) <= 1 -> saturateTorqueRate 1 (fun _ => 5) (fun _ => 0) 0%nat = 5).
Proof.
  apply (saturateTorqueRate_bounded 1 (fun _ => 5) (fun _ => 0) 0%nat); [lra | lia].
Defined.

Lemma stiffnessParamCallback_default_damping_witness :
  cartesian_damping_target_ (stiffnessParamCallback diagonal_message zero_gains) 0%nat 0%nat
  = 1 / 2 * sqrt (diagonal_gain diagonal_message 0%nat)
  /\ cartesian_damping_
       (update_gains 1 (stiffnessParamCallback diagonal_message zero_gains)) 0%nat 0%nat
     = 1 / 2 * sqrt (diagonal_gain diagonal_message 0%nat).
Proof.
  apply (stiffnessParamCallback_default_damping diagonal_message zero_gains 0%nat).
  - reflexivity.
  - exact diagonal_message_positive.
  - reflexivity.
  - lia.
Defined.

(** C1, as stated, fails: for gain 4 on the x axis the stored damping
    target is 1, whereas [2 * sqrt 4] is 4. *)
Lemma stiffnessParamCallback_default_damping_counterexample :
  msg_use_flag diagonal_message = 0%Z
  /\ (forall j, (j < 6)%nat -> 0 < diagonal_gain diagonal_message j)
  /\ msg_bx diagonal_message = -1
  /\ cartesian_damping_target_ (stiffnessParamCallback diagonal_message zero_gains) 0%nat 0%nat = 1
  /\ 2 * sqrt (diagonal_gain diagonal_message 0%nat) = 4
  /\ cartesian_damping_target_ (stiffnessParamCallback diagonal_message zero_gains) 0%nat 0%nat
     <> 2 * sqrt (diagonal_gain diagonal_message 0%nat).
Proof.
  assert (Hd : cartesian_damping_target_
                 (stiffnessParamCallback diagonal_message zero_gains) 0%nat 0%nat = 1).
  { rewrite stiffnessParamCallback_diagonal_damping by (reflexivity || lia).
    simpl. rewrite sqrt_4. lra. }
  assert (Hs : 2 * sqrt (diagonal_gain diagonal_message 0%nat) = 4).
  { simpl. rewrite sqrt_4. lra. }
  split; [reflexivity|]. split; [exact diagonal_message_positive|].
  split; [reflexivity|]. split; [exact Hd|]. split; [exact Hs|].
  rewrite Hd, Hs. lra.
Qed.

(** A unit target turned about the z axis and a unit measured
    orientation turned about the x axis, given by the one of its two
    quaternions that has a negative dot product with the target. *)
Definition unit_target : Quaternion := mkQuaternion 0 0 (3 / 5) (4 / 5).
Definition measured_negative : Quaternion := mkQuaternion (- (3 / 5)) 0 0 (- (4 / 5)).

Lemma measured_negative_error_quaternion :
  coeffs_dot unit_target measured_negative = - (16 / 25)
  /\ error_quaternion unit_target measured_negative
     = mkQuaternion (12 / 25) (9 / 25) (- (12 / 25)) (16 / 25).
Proof.
  unfold error_quaternion, sign_corrected, inverse, conjugate, qmul, coeffs_opp,
    coeffs_dot, unit_target, measured_negative.
  simpl. split; [lra|].
  match goal with |- context [Rlt_dec ?a 0] => destruct (Rlt_dec a 0) end; [|lra].
  match goal with |- context [Rlt_dec 0 ?a] => destruct (Rlt_dec 0 a) end; [|lra].
  simpl. f_equal; field.
Qed.

Lemma orientation_error_sign_corrected_witness :
  sign_corrected unit_target measured_negative = coeffs_opp measured_negative
  /\ 0 < coeffs_dot unit_target
                    (sign_corrected unit_target measured_negative)
  /\ 0 < qw (error_quaternion unit_target measured_negative)
  /\ error_quaternion unit_target (coeffs_opp measured_negative)
     = error_quaternion unit_target measured_negative
  /\ 0 <= angle (AngleAxis_of_Quaternion
                   (error_quaternion unit_target measured_negative)) < PI
  /\ norm3 (orientation_error unit_target measured_negative) < PI
  /\ orientation_error unit_target (coeffs_opp measured_negative)
     = orientation_error unit_target measured_negative.
Proof.
  apply (orientation_error_sign_corrected unit_target measured_negative).
  unfold coeffs_dot. simpl. lra.
Defined.

Lemma nullspace_stiffness_target_never_modified_witness :
  let st := init_gains [200; 200; 200; 10; 10; 10] constructed in
  let events := [StiffnessMessage diagonal_message; ControlCycle] in
  (forall msg st', nullspace_stiffness_target_ (stiffnessParamCallback msg st')
                   = nullspace_stiffness_target_ st')
  /\ nullspace_stiffness_target_ (run (1 / 200) events st) = 0
  /\ nullspace_stiffness_ (run (1 / 200) events st)
     = (1 - 1 / 200) ^ cycles events * nullspace_stiffness_ constructed
  /\ (nullspace_stiffness_ constructed = 0 ->
      nullspace_stiffness_ (run (1 / 200) events st) = 0)
  /\ (Rabs (1 - 1 / 200) < 1 ->
      forall eps, 0 < eps ->
      exists N, forall events',
          (N <= cycles events')%nat ->
          Rabs (nullspace_stiffness_ (run (1 / 200) events' st)) < eps).
Proof.
  apply (nullspace_stiffness_target_never_modified (1 / 200) valid_inputs constructed).
  reflexivity.
Defined.

(** ** Further properties of the gains and of the saturation *)

Lemma clamp_above (d m : R) : 0 <= m -> m < d -> Rmax (Rmin d m) (- m) = m.
Proof.
  intros Hm Hd. unfold Rmax, Rmin.
  destruct (Rle_dec d m); destruct (Rle_dec _ (- m)); lra.
Qed.

Lemma clamp_below (d m : R) : 0 <= m -> d < - m -> Rmax (Rmin d m) (- m) = - m.
Proof.
  intros Hm Hd. unfold Rmax, Rmin.
  destruct (Rle_dec d m); destruct (Rle_dec _ (- m)); lra.
Qed.

(** X10. With a non-negative [delta_tau_max_], a computed torque more
    than [delta_tau_max_] above (below) the previous one is replaced by
    the previous one plus (minus) exactly [delta_tau_max_], and
    saturating an already saturated torque against the same previous
    torque changes nothing. *)
Theorem saturateTorqueRate_exact (delta_tau_max_ : R)
        (tau_d_calculated tau_J_d : Vector) (i : nat) :
  0 <= delta_tau_max_ ->
  (i < 7)%nat ->
  (delta_tau_max_ < tau_d_calculated i - tau_J_d i ->
   saturateTorqueRate delta_tau_max_ tau_d_calculated tau_J_d i
   = tau_J_d i + delta_tau_max_)
  /\ (tau_d_calculated i - tau_J_d i < - delta_tau_max_ ->
      saturateTorqueRate delta_tau_max_ tau_d_calculated tau_J_d i
      = tau_J_d i - delta_tau_max_)
  /\ saturateTorqueRate delta_tau_max_
       (saturateTorqueRate delta_tau_max_ tau_d_calculated tau_J_d) tau_J_d i
     = saturateTorqueRate delta_tau_max_ tau_d_calculated tau_J_d i.
Proof.
  intros Hmax Hi. rewrite !saturateTorqueRate_entry by assumption.
  split; [|split].
  - intros Hhigh. rewrite clamp_above by assumption. reflexivity.
  - intros Hlow. rewrite clamp_below by assumption. lra.
  - pose proof (clamp_bounded (tau_d_calculated i - tau_J_d i) delta_tau_max_ Hmax)
      as Hb.
    rewrite (clamp_inactive
               (tau_J_d i + Rmax (Rmin (tau_d_calculated i - tau_J_d i) delta_tau_max_)
                                 (- delta_tau_max_) - tau_J_d i)).
    + lra.
    + apply Rabs_le. lra.
Qed.

(** X11. In diagonal mode the stiffness target is the diagonal matrix of
    the six gains; when [bx] is not -1 the damping target is the diagonal
    matrix of the six damping fields, taken as they are, and when [bx] is
    -1 the five other damping fields are ignored. *)
Theorem stiffnessParamCallback_diagonal_mode
        (msg : CartImpedanceStiffness) (st : State) (i j : nat) :
  msg_use_flag msg = 0%Z ->
  (i < 6)%nat -> (j < 6)%nat ->
  cartesian_stiffness_target_ (stiffnessParamCallback msg st) i j
  = (if Nat.eqb i j then diagonal_gain msg i else 0)
  /\ (msg_bx msg <> -1 ->
      cartesian_damping_target_ (stiffnessParamCallback msg st) i j
      = if Nat.eqb i j
        then nth i [msg_bx msg; msg_by msg; msg_bz msg;
                    msg_bxrot msg; msg_byrot msg; msg_bzrot msg] 0
        else 0)
  /\ (msg_bx msg = -1 ->
      cartesian_damping_target_ (stiffnessParamCallback msg st) i j
      = if Nat.eqb i j then 1 / 2 * sqrt (diagonal_gain msg i) else 0).
Proof.
  intros Hflag Hi Hj. unfold stiffnessParamCallback.
  rewrite Hflag. simpl Z.eqb. cbv iota.
  destruct (Req_dec_T (msg_bx msg) (-1)) as [Hbx|Hbx].
  - split; [|split; [intros Hne; contradiction | intros _]];
      do 6 (destruct i as [|i]; [do 6 (destruct j as [|j]; [reflexivity|]); lia|]); lia.
  - split; [|split; [intros _ | intros He; contradiction]];
      do 6 (destruct i as [|i]; [do 6 (destruct j as [|j]; [reflexivity|]); lia|]); lia.
Qed.

(** X12. In full mode (any flag other than 0) both targets are block
    diagonal: every entry that couples a translational axis with a
    rotational one is 0, and the two 3x3 blocks hold the message fields
    row by row. *)
Theorem stiffnessParamCallback_full_mode
        (msg : CartImpedanceStiffness) (st : State) (i j : nat) :
  msg_use_flag msg <> 0%Z ->
  (i < 3)%nat -> (j < 3)%nat ->
  cartesian_stiffness_target_ (stiffnessParamCallback msg st) i (3 + j)%nat = 0
  /\ cartesian_stiffness_target_ (stiffnessParamCallback msg st) (3 + i)%nat j = 0
  /\ cartesian_damping_target_ (stiffnessParamCallback msg st) i (3 + j)%nat = 0
  /\ cartesian_damping_target_ (stiffnessParamCallback msg st) (3 + i)%nat j = 0
  /\ cartesian_stiffness_target_ (stiffnessParamCallback msg st) i j
     = nth (3 * i + j)%nat [msg_xx msg; msg_xy msg; msg_xz msg;
                        msg_yx msg; msg_yy msg; msg_yz msg;
                        msg_zx msg; msg_zy msg; msg_zz msg] 0
  /\ cartesian_stiffness_target_ (stiffnessParamCallback msg st) (3 + i)%nat (3 + j)%nat
     = nth (3 * i + j)%nat [msg_xxrot msg; msg_xyrot msg; msg_xzrot msg;
                        msg_yxrot msg; msg_yyrot msg; msg_yzrot msg;
                        msg_zxrot msg; msg_zyrot msg; msg_zzrot msg] 0
  /\ cartesian_damping_target_ (stiffnessParamCallback msg st) i j
     = nth (3 * i + j)%nat [msg_bxx msg; msg_bxy msg; msg_bxz msg;
                        msg_byx msg; msg_byy msg; msg_byz msg;
                        msg_bzx msg; msg_bzy msg; msg_bzz msg] 0
  /\ cartesian_damping_target_ (stiffnessParamCallback msg st) (3 + i)%nat (3 + j)%nat
     = nth (3 * i + j)%nat [msg_bxxrot msg; msg_bxyrot msg; msg_bxzrot msg;
                        msg_byxrot msg; msg_byyrot msg; msg_byzrot msg;
                        msg_bzxrot msg; msg_bzyrot msg; msg_bzzrot msg] 0.
Proof.
  intros Hflag Hi Hj. unfold stiffnessParamCallback.
  destruct (Z.eqb_spec (msg_use_flag msg) 0) as [|_]; [contradiction|].
  do 3 (destruct i as [|i]; [do 3 (destruct j as [|j]; [repeat split|]); lia|]); lia.
Qed.

(** X13. A stiffness message replaces both targets wholesale: the
    targets it leaves do not depend on the state it was applied to, so
    nothing of an earlier message survives, and the applied (filtered)
    gains are not touched. *)
Theorem stiffnessParamCallback_overwrites
        (msg msg' : CartImpedanceStiffness) (st st' : State) (i j : nat) :
  cartesian_stiffness_target_ (stiffnessParamCallback msg (stiffnessParamCallback msg' st)) i j
  = cartesian_stiffness_target_ (stiffnessParamCallback msg st') i j
  /\ cartesian_damping_target_ (stiffnessParamCallback msg (stiffnessParamCallback msg' st)) i j
     = cartesian_damping_target_ (stiffnessParamCallback msg st') i j
  /\ cartesian_stiffness_ (stiffnessParamCallback msg st) = cartesian_stiffness_ st
  /\ cartesian_damping_ (stiffnessParamCallback msg st) = cartesian_damping_ st
  /\ nullspace_stiffness_ (stiffnessParamCallback msg st) = nullspace_stiffness_ st.
Proof.
  assert (Htargets : forall s s',
             cartesian_stiffness_target_ (stiffnessParamCallback msg s)
             = cartesian_stiffness_target_ (stiffnessParamCallback msg s')
             /\ cartesian_damping_target_ (stiffnessParamCallback msg s)
                = cartesian_damping_target_ (stiffnessParamCallback msg s')).
  { intros s s'. unfold stiffnessParamCallback.
    destruct (msg_use_flag msg =? 0)%Z; [destruct (Req_dec_T _ _)|];
      split; reflexivity. }
  destruct (Htargets (stiffnessParamCallback msg' st) st') as [-> ->].
  split; [reflexivity|]. split; [reflexivity|].
  unfold stiffnessParamCallback.
  destruct (msg_use_flag msg =? 0)%Z; [destruct (Req_dec_T _ _)|];
    repeat split; reflexivity.
Qed.

Lemma init_gains_entries (stiffness_gains_ : list R) (obj : State) (i j : nat) :
  (i < 6)%nat -> (j < 6)%nat ->
  cartesian_stiffness_target_ (init_gains stiffness_gains_ obj) i j
  = (if Nat.eqb i j then nth i stiffness_gains_ 0 else 0)
  /\ cartesian_damping_target_ (init_gains stiffness_gains_ obj) i j
     = (if Nat.eqb i j then 2 * sqrt (nth i stiffness_gains_ 0) else 0).
Proof.
  intros Hi Hj.
  do 6 (destruct i as [|i]; [do 6 (destruct j as [|j]; [split; reflexivity|]); lia|]).
  lia.
Qed.

(** X14. [init] either fails and leaves the gain members as they were,
    or succeeds with six configured gains: the stiffness target is their
    diagonal matrix, the damping target is the diagonal matrix of
    [2 * sqrt gain] (critical damping: its square is four times the
    stiffness for a non-negative gain), the nullspace target is 0 and
    the applied stiffness and damping start from zero. *)
Theorem init_sets_critical_damping (inp : InitInputs) (obj : State) :
  (fst (init inp obj) = false -> snd (init inp obj) = obj)
  /\ (fst (init inp obj) = true ->
      exists gains,
        stiffness_gains inp = Some gains
        /\ length gains = 6%nat
        /\ nullspace_stiffness_target_ (snd (init inp obj)) = 0
        /\ cartesian_stiffness_ (snd (init inp obj)) = Zero
        /\ cartesian_damping_ (snd (init inp obj)) = Zero
        /\ forall i j, (i < 6)%nat -> (j < 6)%nat ->
             cartesian_stiffness_target_ (snd (init inp obj)) i j
             = (if Nat.eqb i j then nth i gains 0 else 0)
             /\ cartesian_damping_target_ (snd (init inp obj)) i j
                = (if Nat.eqb i j then 2 * sqrt (nth i gains 0) else 0)
             /\ (0 <= nth i gains 0 ->
                 cartesian_damping_target_ (snd (init inp obj)) i i
                 * cartesian_damping_target_ (snd (init inp obj)) i i
                 = 4 * cartesian_stiffness_target_ (snd (init inp obj)) i i)).
Proof.
  unfold init.
  destruct (arm_id inp); [|split; [reflexivity | discriminate]].
  destruct (joint_names inp) as [names|]; [|split; [reflexivity | discriminate]].
  destruct (stiffness_gains inp) as [gains|]; [|split; [reflexivity | discriminate]].
  destruct (Nat.eqb_spec (length names) 7) as [_|_]; simpl andb;
    [|split; [reflexivity | discriminate]].
  destruct (Nat.eqb_spec (length gains) 6) as [Hlen|_]; simpl andb;
    [|split; [reflexivity | discriminate]].
  destruct (handles_available inp); [|split; [reflexivity | discriminate]].
  split; [discriminate|]. intros _. exists gains.
  split; [reflexivity|]. split; [exact Hlen|].
  split; [reflexivity|]. split; [reflexivity|]. split; [reflexivity|].
  intros i j Hi Hj. cbn [snd].
  destruct (init_gains_entries gains obj i j Hi Hj) as [HK HD].
  destruct (init_gains_entries gains obj i i Hi Hi) as [HKi HDi].
  rewrite Nat.eqb_refl in HKi, HDi.
  split; [exact HK|]. split; [exact HD|].
  intros Hpos. rewrite HKi, HDi.
  pose proof (sqrt_sqrt (nth i gains 0) Hpos). nra.
Qed.

Lemma run_cycles_step (filter_params_ : R) (n : nat) (st : State) :
  run filter_params_ (repeat ControlCycle (S n)) st
  = run filter_params_ (repeat ControlCycle n) (update_gains filter_params_ st).
Proof. reflexivity. Qed.

Lemma run_cycles_closed_form (filter_params_ : R) (n : nat) (st : State) (i j : nat) :
  cartesian_stiffness_target_ (run filter_params_ (repeat ControlCycle n) st)
  = cartesian_stiffness_target_ st
  /\ cartesian_damping_target_ (run filter_params_ (repeat ControlCycle n) st)
     = cartesian_damping_target_ st
  /\ cartesian_stiffness_ (run filter_params_ (repeat ControlCycle n) st) i j
     = cartesian_stiffness_target_ st i j
       + (1 - filter_params_) ^ n
         * (cartesian_stiffness_ st i j - cartesian_stiffness_target_ st i j)
  /\ cartesian_damping_ (run filter_params_ (repeat ControlCycle n) st) i j
     = cartesian_damping_target_ st i j
       + (1 - filter_params_) ^ n
         * (cartesian_damping_ st i j - cartesian_damping_target_ st i j).
Proof.
  revert st. induction n as [|n IH]; intros st.
  - simpl. repeat split; ring.
  - rewrite run_cycles_step.
    destruct (IH (update_gains filter_params_ st)) as (Ht & Hd & HK & HD).
    split; [exact Ht|]. split; [exact Hd|].
    rewrite HK, HD. simpl. unfold madd, mscale. split; ring.
Qed.

(** X15. Over n control cycles without a stiffness message the targets
    stay put and every applied stiffness and damping entry is the target
    plus [(1 - filter_params_)^n] times its initial distance from the
    target; with [|1 - filter_params_| < 1] each entry converges to its
    target. *)
Theorem update_gains_exponential_filter
        (filter_params_ : R) (n : nat) (st : State) (i j : nat) :
  cartesian_stiffness_ (run filter_params_ (repeat ControlCycle n) st) i j
  = cartesian_stiffness_target_ st i j
    + (1 - filter_params_) ^ n
      * (cartesian_stiffness_ st i j - cartesian_stiffness_target_ st i j)
  /\ cartesian_damping_ (run filter_params_ (repeat ControlCycle n) st) i j
     = cartesian_damping_target_ st i j
       + (1 - filter_params_) ^ n
         * (cartesian_damping_ st i j - cartesian_damping_target_ st i j)
  /\ (Rabs (1 - filter_params_) < 1 ->
      forall eps, 0 < eps ->
      exists N, forall m, (N <= m)%nat ->
        Rabs (cartesian_stiffness_ (run filter_params_ (repeat ControlCycle m) st) i j
              - cartesian_stiffness_target_ st i j) < eps
        /\ Rabs (cartesian_damping_ (run filter_params_ (repeat ControlCycle m) st) i j
                 - cartesian_damping_target_ st i j) < eps).
Proof.
  destruct (run_cycles_closed_form filter_params_ n st i j) as (_ & _ & HK & HD).
  split; [exact HK|]. split; [exact HD|].
  intros Hrate eps Heps.
  set (dK := cartesian_stiffness_ st i j - cartesian_stiffness_target_ st i j).
  set (dD := cartesian_damping_ st i j - cartesian_damping_target_ st i j).
  destruct (pow_lt_1_zero (1 - filter_params_) Hrate (eps / (1 + Rabs dK + Rabs dD)))
    as [N HN].
  { apply Rdiv_lt_0_compat; [exact Heps|].
    pose proof (Rabs_pos dK). pose proof (Rabs_pos dD). lra. }
  exists N. intros m Hm.
  destruct (run_cycles_closed_form filter_params_ m st i j) as (_ & _ & -> & ->).
  fold dK dD. specialize (HN m Hm).
  pose proof (Rabs_pos dK) as HpK. pose proof (Rabs_pos dD) as HpD.
  pose proof (Rabs_pos ((1 - filter_params_) ^ m)) as Hpp.
  assert (Hscale : Rabs ((1 - filter_params_) ^ m) * (1 + Rabs dK + Rabs dD) < eps).
  { apply (Rmult_lt_compat_r (1 + Rabs dK + Rabs dD)) in HN; [|lra].
    replace (eps / (1 + Rabs dK + Rabs dD) * (1 + Rabs dK + Rabs dD)) with eps in HN
      by (field; lra).
    exact HN. }
  split.
  - replace (cartesian_stiffness_target_ st i j + (1 - filter_params_) ^ m * dK
             - cartesian_stiffness_target_ st i j)
      with ((1 - filter_params_) ^ m * dK) by ring.
    rewrite Rabs_mult. nra.
  - replace (cartesian_damping_target_ st i j + (1 - filter_params_) ^ m * dD
             - cartesian_damping_target_ st i j)
      with ((1 - filter_params_) ^ m * dD) by ring.
    rewrite Rabs_mult. nra.
Qed.

(** ** The whole controller: pose members, callbacks and control cycle *)

(** Dense products on the function representation; the second argument
    of a product is the shared dimension. *)
Definition sum_upto (n : nat) (f : nat -> R) : R :=
  fold_right Rplus 0 (map f (seq 0 n)).
Definition transpose (M : Matrix) : Matrix := fun i j => M j i.
Definition mopp (M : Matrix) : Matrix := fun i j => - M i j.
Definition msub (M N : Matrix) : Matrix := fun i j => M i j - N i j.
Definition mat_mul (inner : nat) (M N : Matrix) : Matrix :=
  fun i j => sum_upto inner (fun k => M i k * N k j).
Definition mat_vec (cols : nat) (M : Matrix) (v : Vector) : Vector :=
  fun i => sum_upto cols (fun j => M i j * v j).
Definition vadd (u v : Vector) : Vector := fun i => u i + v i.
Definition vsub (u v : Vector) : Vector := fun i => u i - v i.
Definition vscale (a : R) (v : Vector) : Vector := fun i => a * v i.

Definition vadd3 (u v : Vector3) : Vector3 :=
  mkVector3 (v0 u + v0 v) (v1 u + v1 v) (v2 u + v2 v).
Definition vsub3 (u v : Vector3) : Vector3 :=
  mkVector3 (v0 u - v0 v) (v1 u - v1 v) (v2 u - v2 v).
Definition smul3 (a : R) (v : Vector3) : Vector3 :=
  mkVector3 (a * v0 v) (a * v1 v) (a * v2 v).

(** Eigen's construction of a quaternion from an axis-angle pair:
    [w = cos(angle / 2)], vector part [sin(angle / 2) * axis]. *)
Definition Quaternion_of_AngleAxis (aa : AngleAxis) : Quaternion :=
  let ha := 1 / 2 * angle aa in
  mkQuaternion (sin ha * v0 (axis aa)) (sin ha * v1 (axis aa))
               (sin ha * v2 (axis aa)) (cos ha).

(** The gain members together with the pose members. *)
Record Controller : Type := mkController {
  gains : State;
  position_d_ : Vector3;
  orientation_d_ : Quaternion;
  position_d_target_ : Vector3;
  orientation_d_target_ : Quaternion;
  q_d_nullspace_ : Vector
}.

(** What a cycle reads from the hardware: [franka::RobotState] (joint
    positions and velocities, previous commanded torque, and the
    end-effector pose [O_T_EE] as its translation and the quaternion
    Eigen makes of its rotation), the Coriolis vector and the 6x7 zero
    Jacobian. *)
Record RobotState : Type := mkRobotState {
  q : Vector;
  dq : Vector;
  tau_J_d : Vector;
  position : Vector3;
  orientation : Quaternion
}.

Section WithCycle.

Variables filter_params_ delta_tau_max_ : R.

(** [pseudoInverse] of [pseudo_inversion.h], which is not part of the
    sources: the matrix it stores in its second argument. *)
Variable pseudoInverse : Matrix -> Matrix.

(** *** [CartesianImpedanceController::init], pose part included *)

Definition init_controller (inp : InitInputs) (c : Controller) : bool * Controller :=
  let r := init inp (gains c) in
  if fst r then
    (true,
     mkController (snd r)
                  (mkVector3 0 0 0) (mkQuaternion 0 0 0 1)
                  (mkVector3 0 0 0) (mkQuaternion 0 0 0 1)
                  (q_d_nullspace_ c))
  else (false, c).

(** *** [CartesianImpedanceController::starting] *)

Definition starting (initial_state : RobotState) (c : Controller) : Controller :=
  mkController (gains c)
               (position initial_state) (orientation initial_state)
               (position initial_state) (orientation initial_state)
               (q initial_state).

(** *** [CartesianImpedanceController::equilibriumPoseCallback] *)

Definition equilibriumPoseCallback (msg_position : Vector3) (msg_orientation : Quaternion)
           (c : Controller) : Controller :=
  let last_orientation_d_target := orientation_d_target_ c in
  mkController (gains c) (position_d_ c) (orientation_d_ c)
               msg_position
               (if Rlt_dec (coeffs_dot last_orientation_d_target msg_orientation) 0
                then coeffs_opp msg_orientation else msg_orientation)
               (q_d_nullspace_ c).

(** *** [CartesianImpedanceController::update] *)

(** The six-dimensional pose error: position error on top of the
    orientation error. *)
Definition pose_error (c : Controller) (robot_state : RobotState) : Vector :=
  let head := vsub3 (position robot_state) (position_d_ c) in
  let tail := orientation_error (orientation_d_ c) (orientation robot_state) in
  fun i =>
    match i with
    | 0%nat => v0 head
    | 1%nat => v1 head
    | 2%nat => v2 head
    | 3%nat => v0 tail
    | 4%nat => v1 tail
    | 5%nat => v2 tail
    | _ => 0
    end.

Definition tau_task (c : Controller) (robot_state : RobotState) (jacobian : Matrix)
  : Vector :=
  mat_vec 6 (transpose jacobian)
          (vsub (mat_vec 6 (mopp (cartesian_stiffness_ (gains c))) (pose_error c robot_state))
                (mat_vec 6 (cartesian_damping_ (gains c))
                         (mat_vec 7 jacobian (dq robot_state)))).

Definition tau_nullspace (c : Controller) (robot_state : RobotState) (jacobian : Matrix)
  : Vector :=
  let jacobian_transpose_pinv := pseudoInverse (transpose jacobian) in
  mat_vec 7 (msub Identity (mat_mul 6 (transpose jacobian) jacobian_transpose_pinv))
          (vsub (vscale (nullspace_stiffness_ (gains c))
                        (vsub (q_d_nullspace_ c) (q robot_state)))
                (vscale (2 * sqrt (nullspace_stiffness_ (gains c))) (dq robot_state))).

(** The torque before saturation. *)
Definition tau_d (c : Controller) (robot_state : RobotState)
           (coriolis : Vector) (jacobian : Matrix) : Vector :=
  vadd (vadd (tau_task c robot_state jacobian) (tau_nullspace c robot_state jacobian))
       coriolis.

(** The filtering of the desired orientation in axis-angle form. *)
Definition filtered_orientation (c : Controller) : Quaternion :=
  let aa_orientation_d := AngleAxis_of_Quaternion (orientation_d_ c) in
  let aa_orientation_d_target := AngleAxis_of_Quaternion (orientation_d_target_ c) in
  Quaternion_of_AngleAxis
    (mkAngleAxis
       (filter_params_ * angle aa_orientation_d_target
        + (1 - filter_params_) * angle aa_orientation_d)
       (vadd3 (smul3 filter_params_ (axis aa_orientation_d_target))
              (smul3 (1 - filter_params_) (axis aa_orientation_d)))).

(** One cycle: the seven commands handed to the joint handles and the
    controller afterwards. *)
Definition update (robot_state : RobotState) (coriolis : Vector) (jacobian : Matrix)
           (c : Controller) : Vector * Controller :=
  (saturateTorqueRate delta_tau_max_ (tau_d c robot_state coriolis jacobian)
                      (tau_J_d robot_state),
   mkController (update_gains filter_params_ (gains c))
                (vadd3 (smul3 filter_params_ (position_d_target_ c))
                       (smul3 (1 - filter_params_) (position_d_ c)))
                (filtered_orientation c)
                (position_d_target_ c) (orientation_d_target_ c)
                (q_d_nullspace_ c)).

End WithCycle.

(** ** Properties of the control cycle *)

Lemma sum_upto_zero (n : nat) (f : nat -> R) :
  (forall j, (j < n)%nat -> f j = 0) -> sum_upto n f = 0.
Proof.
  unfold sum_upto. intros Hf.
  assert (Hgen : forall k, (forall j, (k <= j < k + n)%nat -> f j = 0) ->
                           fold_right Rplus 0 (map f (seq k n)) = 0).
  { clear Hf. induction n as [|n IH]; intros k Hk; simpl; [reflexivity|].
    rewrite Hk by lia. rewrite IH; [lra|]. intros j Hj. apply Hk. lia. }
  apply Hgen. intros j Hj. apply Hf. lia.
Qed.

Lemma mat_vec_zero_vector (cols : nat) (M : Matrix) (v : Vector) (i : nat) :
  (forall j, (j < cols)%nat -> v j = 0) -> mat_vec cols M v i = 0.
Proof.
  intros Hv. unfold mat_vec. apply sum_upto_zero.
  intros j Hj. rewrite Hv by assumption. ring.
Qed.

Lemma mat_vec_zero_matrix (cols : nat) (M : Matrix) (v : Vector) (i : nat) :
  (forall j, (j < cols)%nat -> M i j = 0) -> mat_vec cols M v i = 0.
Proof.
  intros HM. unfold mat_vec. apply sum_upto_zero.
  intros j Hj. rewrite HM by assumption. ring.
Qed.

(** The axis-angle product of a quaternion without vector part is the
    zero vector. *)
Lemma axis_angle_of_scalar (e : Quaternion) :
  qx e = 0 -> qy e = 0 -> qz e = 0 ->
  vscale3 (axis (AngleAxis_of_Quaternion e)) (angle (AngleAxis_of_Quaternion e))
  = mkVector3 0 0 0.
Proof.
  intros Hx Hy Hz. unfold AngleAxis_of_Quaternion, norm3, vec. simpl.
  rewrite Hx, Hy, Hz.
  replace (0 * 0 + 0 * 0 + 0 * 0) with 0 by ring. rewrite sqrt_0.
  destruct (Req_dec_T 0 0) as [_|Hne]; [|contradiction].
  unfold vscale3. simpl. f_equal; ring.
Qed.

Lemma error_quaternion_at_target (orientation_d_ : Quaternion) :
  vec (error_quaternion orientation_d_ orientation_d_) = mkVector3 0 0 0
  /\ vec (error_quaternion orientation_d_ (coeffs_opp orientation_d_)) = mkVector3 0 0 0.
Proof.
  destruct orientation_d_ as [x y z w].
  unfold error_quaternion, sign_corrected, inverse, coeffs_dot, coeffs_opp, conjugate,
    qmul, vec.
  simpl.
  destruct (Rlt_dec 0 (x * x + y * y + z * z + w * w)) as [Hpos|Hnpos].
  - destruct (Rlt_dec (x * x + y * y + z * z + w * w) 0); [lra|].
    destruct (Rlt_dec (x * - x + y * - y + z * - z + w * - w) 0); [|lra].
    simpl. split; f_equal; field; lra.
  - destruct (Rlt_dec (x * x + y * y + z * z + w * w) 0);
      destruct (Rlt_dec (x * - x + y * - y + z * - z + w * - w) 0);
      simpl; split; f_equal; ring.
Qed.

Lemma orientation_error_same_rotation (orientation_d_ : Quaternion) :
  orientation_error orientation_d_ orientation_d_ = mkVector3 0 0 0
  /\ orientation_error orientation_d_ (coeffs_opp orientation_d_) = mkVector3 0 0 0.
Proof.
  destruct (error_quaternion_at_target orientation_d_) as [Hsame Hopp].
  unfold vec in Hsame, Hopp. injection Hsame as Hx Hy Hz.
  injection Hopp as Hx' Hy' Hz'.
  unfold orientation_error. split; by apply axis_angle_of_scalar.
Qed.

(** X16. The orientation error vanishes when the measured orientation
    is the desired quaternion or its opposite, whatever that quaternion
    is (the zero quaternion included). *)
Theorem orientation_error_at_target (orientation_d_ : Quaternion) :
  orientation_error orientation_d_ orientation_d_ = mkVector3 0 0 0
  /\ orientation_error orientation_d_ (coeffs_opp orientation_d_) = mkVector3 0 0 0.
Proof. exact (orientation_error_same_rotation orientation_d_). Qed.

(** X17. Whatever the gains, the targets, the measured state, the
    Jacobian and the pseudo-inverse, each of the seven commands of a
    cycle is within [delta_tau_max_] (non-negative) of the previous
    commanded torque [tau_J_d]. *)
Theorem update_rate_limited
        (filter_params_ delta_tau_max_ : R) (pseudoInverse : Matrix -> Matrix)
        (robot_state : RobotState) (coriolis : Vector) (jacobian : Matrix)
        (c : Controller) (i : nat) :
  0 <= delta_tau_max_ ->
  (i < 7)%nat ->
  Rabs (fst (update filter_params_ delta_tau_max_ pseudoInverse
                    robot_state coriolis jacobian c) i
        - tau_J_d robot_state i) <= delta_tau_max_.
Proof.
  intros Hmax Hi. unfold update. cbn [fst].
  rewrite saturateTorqueRate_entry by assumption.
  pose proof (clamp_bounded
                (tau_d pseudoInverse c robot_state coriolis jacobian i
                 - tau_J_d robot_state i) delta_tau_max_ Hmax).
  apply Rabs_le. lra.
Qed.

Lemma init_applied_gains_zero (inp : InitInputs) (obj : State) :
  fst (init inp obj) = true ->
  cartesian_stiffness_ (snd (init inp obj)) = Zero
  /\ cartesian_damping_ (snd (init inp obj)) = Zero.
Proof.
  unfold init.
  destruct (arm_id inp); [|discriminate].
  destruct (joint_names inp); [|discriminate].
  destruct (stiffness_gains inp); [|discriminate].
  destruct (_ && _); [|discriminate].
  intros _. split; reflexivity.
Qed.

(** X18. After a successful [init] the applied Cartesian stiffness and
    damping are zero, so in the first cycle after [starting] the task
    torque vanishes for every measured state and Jacobian: the torque
    before saturation is the nullspace torque plus the Coriolis term. *)
Theorem update_first_cycle_without_task_torque
        (pseudoInverse : Matrix -> Matrix) (inp : InitInputs) (c0 c1 : Controller)
        (initial_state robot_state : RobotState) (coriolis : Vector) (jacobian : Matrix)
        (i : nat) :
  init_controller inp c0 = (true, c1) ->
  tau_task (starting initial_state c1) robot_state jacobian i = 0
  /\ tau_d pseudoInverse (starting initial_state c1) robot_state coriolis jacobian i
     = tau_nullspace pseudoInverse (starting initial_state c1) robot_state jacobian i
       + coriolis i.
Proof.
  unfold init_controller.
  destruct (fst (init inp (gains c0))) eqn:Hfst; [|discriminate].
  destruct (init_applied_gains_zero inp (gains c0) Hfst) as [HK HD].
  intros [= <-].
  assert (Htask : tau_task
                    (starting initial_state
                       (mkController (snd (init inp (gains c0)))
                                     (mkVector3 0 0 0) (mkQuaternion 0 0 0 1)
                                     (mkVector3 0 0 0) (mkQuaternion 0 0 0 1)
                                     (q_d_nullspace_ c0)))
                    robot_state jacobian i = 0).
  { unfold tau_task, starting. cbn [gains]. rewrite HK, HD.
    apply mat_vec_zero_vector. intros j Hj. unfold vsub.
    rewrite !mat_vec_zero_matrix; [lra | |]; intros k Hk; unfold mopp, Zero; lra. }
  split; [exact Htask|].
  unfold tau_d, vadd. rewrite Htask. ring.
Qed.

(** X19. In the cycle that follows [starting], with the robot still at
    the pose and joint configuration it started from and at rest, the
    torque before saturation is the Coriolis vector alone, whatever the
    gains: the pose error and the nullspace error are both zero. *)
Theorem update_at_start_pose
        (pseudoInverse : Matrix -> Matrix) (c : Controller)
        (initial_state : RobotState) (coriolis : Vector) (jacobian : Matrix) (i : nat) :
  (forall j, (j < 7)%nat -> dq initial_state j = 0) ->
  (forall k, (k < 6)%nat -> pose_error (starting initial_state c) initial_state k = 0)
  /\ tau_d pseudoInverse (starting initial_state c) initial_state coriolis jacobian i
     = coriolis i.
Proof.
  intros Hrest.
  assert (Herr : forall k, (k < 6)%nat ->
                           pose_error (starting initial_state c) initial_state k = 0).
  { intros k Hk. unfold pose_error, starting. cbn [position_d_ orientation_d_].
    destruct (orientation_error_same_rotation (orientation initial_state)) as [-> _].
    unfold vsub3. simpl.
    do 6 (destruct k as [|k]; [lra|]). lia. }
  split; [exact Herr|].
  assert (Hjdq : forall k, mat_vec 7 jacobian (dq initial_state) k = 0).
  { intros k. apply mat_vec_zero_vector. exact Hrest. }
  unfold tau_d, vadd, tau_task, tau_nullspace.
  rewrite (mat_vec_zero_vector 6 (transpose jacobian)).
  - rewrite (mat_vec_zero_vector 7).
    + ring.
    + intros j Hj. unfold vsub, vscale, starting. cbn [q_d_nullspace_ gains].
      rewrite Hrest by assumption. ring.
  - intros j Hj. unfold vsub.
    rewrite (mat_vec_zero_vector 6 _ (pose_error _ _)) by exact Herr.
    rewrite (mat_vec_zero_vector 6 _ (mat_vec 7 jacobian (dq initial_state)))
      by (intros k _; apply Hjdq).
    ring.
Qed.

(** X20. The pose message replaces the position target by the message
    position and the orientation target by the message quaternion or its
    opposite, whichever has a non-negative coefficient dot product with
    the previous target; the smoothed pose, the gains and the nullspace
    reference are left as they were. *)
Theorem equilibriumPoseCallback_shortest_path
        (msg_position : Vector3) (msg_orientation : Quaternion) (c : Controller) :
  let c' := equilibriumPoseCallback msg_position msg_orientation c in
  position_d_target_ c' = msg_position
  /\ (orientation_d_target_ c' = msg_orientation
      \/ orientation_d_target_ c' = coeffs_opp msg_orientation)
  /\ 0 <= coeffs_dot (orientation_d_target_ c) (orientation_d_target_ c')
  /\ position_d_ c' = position_d_ c
  /\ orientation_d_ c' = orientation_d_ c
  /\ gains c' = gains c
  /\ q_d_nullspace_ c' = q_d_nullspace_ c.
Proof.
  unfold equilibriumPoseCallback. simpl.
  destruct (Rlt_dec (coeffs_dot (orientation_d_target_ c) msg_orientation) 0) as [Hneg|Hpos].
  - repeat split; try reflexivity; [by right|].
    rewrite coeffs_dot_opp_r. lra.
  - repeat split; try reflexivity; [by left|]. lra.
Qed.

(** Sine and cosine of [atan2 n a] on the unit circle. *)
Lemma atan2_unit_circle (n a : R) :
  0 < n -> 0 <= a -> n * n + a * a = 1 ->
  sin (atan2 n a) = n /\ cos (atan2 n a) = a.
Proof.
  intros Hn Ha Hunit. unfold atan2.
  destruct (Rlt_dec 0 a) as [Hpos|Hnpos].
  - assert (Hroot : sqrt (1 + (n / a)²) = 1 / a).
    { apply sqrt_lem_1.
      - unfold Rsqr. pose proof (Rle_0_sqr (n / a)) as H. unfold Rsqr in H. lra.
      - apply Rlt_le. apply Rdiv_lt_0_compat; lra.
      - unfold Rsqr.
        replace (1 + n / a * (n / a)) with ((a * a + n * n) / (a * a)) by (field; lra).
        replace (a * a + n * n) with 1 by lra. field. lra. }
    rewrite sin_atan, cos_atan, Hroot. split; field; lra.
  - destruct (Rlt_dec a 0); [lra|].
    destruct (Rlt_dec 0 n); [|lra].
    assert (a = 0) as -> by lra.
    rewrite sin_PI2, cos_PI2. split; [nra | reflexivity].
Qed.

(** The axis-angle form of a unit quaternion converts back to the
    quaternion itself, or to its opposite when its scalar part is
    negative. *)
Lemma Quaternion_AngleAxis_round_trip (qt : Quaternion) :
  coeffs_dot qt qt = 1 ->
  Quaternion_of_AngleAxis (AngleAxis_of_Quaternion qt)
  = if Rlt_dec (qw qt) 0 then coeffs_opp qt else qt.
Proof.
  destruct qt as [x y z w]. unfold coeffs_dot, coeffs_opp. simpl. intros Hunit.
  unfold AngleAxis_of_Quaternion, Quaternion_of_AngleAxis, norm3, vec. simpl.
  set (n := sqrt (x * x + y * y + z * z)).
  assert (Hn2 : n * n = x * x + y * y + z * z) by (apply sqrt_sqrt; nra).
  assert (Hn0 : 0 <= n) by apply sqrt_pos.
  destruct (Req_dec_T n 0) as [Hz|Hnz]; simpl.
  - rewrite Hz in Hn2.
    assert (x = 0) as -> by nra. assert (y = 0) as -> by nra. assert (z = 0) as -> by nra.
    replace (1 / 2 * 0) with 0 by lra. rewrite sin_0, cos_0.
    destruct (Rlt_dec w 0); f_equal; nra.
  - replace (1 / 2 * (2 * atan2 n (Rabs w))) with (atan2 n (Rabs w)) by lra.
    destruct (atan2_unit_circle n (Rabs w)) as [-> ->].
    + lra.
    + apply Rabs_pos.
    + unfold Rabs. destruct (Rcase_abs w); nra.
    + destruct (Rlt_dec w 0) as [Hneg|Hpos].
      * rewrite Rabs_left by assumption. f_equal; field; lra.
      * rewrite Rabs_right by lra. f_equal; field; lra.
Qed.

(** X21. With filter coefficient 1 a single cycle moves the smoothed
    pose onto the target: the desired position becomes the position
    target and, for a unit target quaternion, the desired orientation
    becomes that quaternion, or its opposite (the same rotation) when its
    scalar part is negative; the applied gains become the gain targets. *)
Theorem update_unit_filter_reaches_target
        (delta_tau_max_ : R) (pseudoInverse : Matrix -> Matrix)
        (robot_state : RobotState) (coriolis : Vector) (jacobian : Matrix)
        (c : Controller) (i j : nat) :
  coeffs_dot (orientation_d_target_ c) (orientation_d_target_ c) = 1 ->
  let c' := snd (update 1 delta_tau_max_ pseudoInverse robot_state coriolis jacobian c) in
  position_d_ c' = position_d_target_ c
  /\ orientation_d_ c'
     = (if Rlt_dec (qw (orientation_d_target_ c)) 0
        then coeffs_opp (orientation_d_target_ c) else orientation_d_target_ c)
  /\ cartesian_stiffness_ (gains c') i j = cartesian_stiffness_target_ (gains c) i j
  /\ cartesian_damping_ (gains c') i j = cartesian_damping_target_ (gains c) i j
  /\ position_d_target_ c' = position_d_target_ c
  /\ orientation_d_target_ c' = orientation_d_target_ c.
Proof.
  intros Hunit. unfold update. cbn [snd position_d_ orientation_d_ gains
                                     position_d_target_ orientation_d_target_].
  split; [|split; [|split; [|split; [|split; reflexivity]]]].
  - destruct (position_d_target_ c) as [a0 a1 a2].
    destruct (position_d_ c) as [b0 b1 b2].
    unfold vadd3, smul3. simpl. f_equal; ring.
  - rewrite <- (Quaternion_AngleAxis_round_trip _ Hunit).
    unfold filtered_orientation. f_equal.
    destruct (AngleAxis_of_Quaternion (orientation_d_target_ c)) as [at_ [a0 a1 a2]].
    destruct (AngleAxis_of_Quaternion (orientation_d_ c)) as [ad_ [b0 b1 b2]].
    unfold vadd3, smul3. simpl. f_equal; [ring|]. f_equal; ring.
  - simpl. unfold madd, mscale. ring.
  - simpl. unfold madd, mscale. ring.
Qed.

(** X22. With a filtered nullspace stiffness of 0 the nullspace torque
    vanishes on every joint, whatever the Jacobian, the pseudo-inverse,
    the nullspace reference and the joint state: the torque before
    saturation is the task torque plus the Coriolis term. *)
Theorem update_without_nullspace_stiffness
        (pseudoInverse : Matrix -> Matrix) (c : Controller) (robot_state : RobotState)
        (coriolis : Vector) (jacobian : Matrix) (i : nat) :
  nullspace_stiffness_ (gains c) = 0 ->
  tau_nullspace pseudoInverse c robot_state jacobian i = 0
  /\ tau_d pseudoInverse c robot_state coriolis jacobian i
     = tau_task c robot_state jacobian i + coriolis i.
Proof.
  intros Hzero.
  assert (Hnull : tau_nullspace pseudoInverse c robot_state jacobian i = 0).
  { unfold tau_nullspace. apply mat_vec_zero_vector. intros j _.
    unfold vsub, vscale. rewrite Hzero, sqrt_0. ring. }
  split; [exact Hnull|]. unfold tau_d, vadd. rewrite Hnull. ring.
Qed.

(** ** Evaluation of the cycle on concrete inputs *)

(** A full-mode message whose two stiffness blocks and two damping
    blocks are filled with distinct values. *)
Definition full_message : CartImpedanceStiffness :=
  mkCartImpedanceStiffness 1
    0 0 0 0 0 0
    0 0 0 0 0 0
    11 12 13 21 22 23 31 32 33
    44 45 46 54 55 56 64 65 66
    1 2 3 4 5 6 7 8 9
    10 20 30 40 50 60 70 80 90.

(** A robot at rest at the origin with the identity orientation. *)
Definition resting_state : RobotState :=
  mkRobotState (fun _ => 0) (fun _ => 0) (fun _ => 0)
               (mkVector3 0 0 0) (mkQuaternion 0 0 0 1).

(** A controller as constructed, before [init]. *)
Definition sample_controller : Controller :=
  mkController constructed (mkVector3 0 0 0) (mkQuaternion 0 0 0 1)
               (mkVector3 0 0 0) (mkQuaternion 0 0 0 1) (fun _ => 0).

Lemma saturateTorqueRate_exact_witness :
  (1 < 5 - 0 -> saturateTorqueRate 1 (fun _ => 5) (fun _ => 0) 0%nat = 0 + 1)
  /\ (5 - 0 < - 1 -> saturateTorqueRate 1 (fun _ => 5) (fun _ => 0) 0%nat = 0 - 1)
  /\ saturateTorqueRate 1 (saturateTorqueRate 1 (fun _ => 5) (fun _ => 0)) (fun _ => 0) 0%nat
     = saturateTorqueRate 1 (fun _ => 5) (fun _ => 0) 0%nat.
Proof.
  apply (saturateTorqueRate_exact 1 (fun _ => 5) (fun _ => 0) 0%nat); [lra | lia].
Defined.

Lemma stiffnessParamCallback_diagonal_mode_witness :
  cartesian_stiffness_target_ (stiffnessParamCallback diagonal_message zero_gains) 1%nat 2%nat
  = (if Nat.eqb 1 2 then diagonal_gain diagonal_message 1 else 0)
  /\ (msg_bx diagonal_message <> -1 ->
      cartesian_damping_target_ (stiffnessParamCallback diagonal_message zero_gains)
                                1%nat 2%nat
      = if Nat.eqb 1 2
        then nth 1 [msg_bx diagonal_message; msg_by diagonal_message;
                    msg_bz diagonal_message; msg_bxrot diagonal_message;
                    msg_byrot diagonal_message; msg_bzrot diagonal_message] 0
        else 0)
  /\ (msg_bx diagonal_message = -1 ->
      cartesian_damping_target_ (stiffnessParamCallback diagonal_message zero_gains)
                                1%nat 2%nat
      = if Nat.eqb 1 2 then 1 / 2 * sqrt (diagonal_gain diagonal_message 1) else 0).
Proof.
  apply (stiffnessParamCallback_diagonal_mode diagonal_message zero_gains 1 2);
    [reflexivity | lia | lia].
Defined.

Lemma stiffnessParamCallback_full_mode_witness :
  cartesian_stiffness_target_ (stiffnessParamCallback full_message zero_gains) 1%nat 5%nat = 0
  /\ cartesian_stiffness_target_ (stiffnessParamCallback full_message zero_gains) 4%nat 2%nat = 0
  /\ cartesian_damping_target_ (stiffnessParamCallback full_message zero_gains) 1%nat 5%nat = 0
  /\ cartesian_damping_target_ (stiffnessParamCallback full_message zero_gains) 4%nat 2%nat = 0
  /\ cartesian_stiffness_target_ (stiffnessParamCallback full_message zero_gains) 1%nat 2%nat
     = nth 5 [msg_xx full_message; msg_xy full_message; msg_xz full_message;
              msg_yx full_message; msg_yy full_message; msg_yz full_message;
              msg_zx full_message; msg_zy full_message; msg_zz full_message] 0
  /\ cartesian_stiffness_target_ (stiffnessParamCallback full_message zero_gains) 4%nat 5%nat
     = nth 5 [msg_xxrot full_message; msg_xyrot full_message; msg_xzrot full_message;
              msg_yxrot full_message; msg_yyrot full_message; msg_yzrot full_message;
              msg_zxrot full_message; msg_zyrot full_message; msg_zzrot full_message] 0
  /\ cartesian_damping_target_ (stiffnessParamCallback full_message zero_gains) 1%nat 2%nat
     = nth 5 [msg_bxx full_message; msg_bxy full_message; msg_bxz full_message;
              msg_byx full_message; msg_byy full_message; msg_byz full_message;
              msg_bzx full_message; msg_bzy full_message; msg_bzz full_message] 0
  /\ cartesian_damping_target_ (stiffnessParamCallback full_message zero_gains) 4%nat 5%nat
     = nth 5 [msg_bxxrot full_message; msg_bxyrot full_message; msg_bxzrot full_message;
              msg_byxrot full_message; msg_byyrot full_message; msg_byzrot full_message;
              msg_bzxrot full_message; msg_bzyrot full_message; msg_bzzrot full_message] 0.
Proof.
  apply (stiffnessParamCallback_full_mode full_message zero_gains 1 2);
    [simpl; lia | lia | lia].
Defined.

Lemma update_rate_limited_witness :
  Rabs (fst (update (1 / 200) 1 (fun M => M) resting_state (fun _ => 3) Zero
                    sample_controller) 0%nat
        - tau_J_d resting_state 0%nat) <= 1.
Proof.
  apply (update_rate_limited (1 / 200) 1 (fun M => M) resting_state (fun _ => 3) Zero
                             sample_controller 0%nat); [lra | lia].
Defined.

Lemma update_first_cycle_without_task_torque_witness :
  let c1 := snd (init_controller valid_inputs sample_controller) in
  tau_task (starting resting_state c1) resting_state Identity 0%nat = 0
  /\ tau_d (fun M => M) (starting resting_state c1) resting_state (fun _ => 3) Identity 0%nat
     = tau_nullspace (fun M => M) (starting resting_state c1) resting_state Identity 0%nat
       + 3.
Proof.
  apply (update_first_cycle_without_task_torque (fun M => M) valid_inputs
           sample_controller (snd (init_controller valid_inputs sample_controller))
           resting_state resting_state (fun _ => 3) Identity 0%nat).
  reflexivity.
Defined.

Lemma update_at_start_pose_witness :
  (forall k, (k < 6)%nat ->
             pose_error (starting resting_state sample_controller) resting_state k = 0)
  /\ tau_d (fun M => M) (starting resting_state sample_controller) resting_state
           (fun _ => 3) Identity 0%nat
     = 3.
Proof.
  apply (update_at_start_pose (fun M => M) sample_controller resting_state
                              (fun _ => 3) Identity 0%nat).
  intros j _. reflexivity.
Defined.

Lemma update_unit_filter_reaches_target_witness :
  let c' := snd (update 1 1 (fun M => M) resting_state (fun _ => 3) Identity
                        sample_controller) in
  position_d_ c' = position_d_target_ sample_controller
  /\ orientation_d_ c'
     = (if Rlt_dec (qw (orientation_d_target_ sample_controller)) 0
        then coeffs_opp (orientation_d_target_ sample_controller)
        else orientation_d_target_ sample_controller)
  /\ cartesian_stiffness_ (gains c') 0%nat 0%nat
     = cartesian_stiffness_target_ (gains sample_controller) 0%nat 0%nat
  /\ cartesian_damping_ (gains c') 0%nat 0%nat
     = cartesian_damping_target_ (gains sample_controller) 0%nat 0%nat
  /\ position_d_target_ c' = position_d_target_ sample_controller
  /\ orientation_d_target_ c' = orientation_d_target_ sample_controller.
Proof.
  apply (update_unit_filter_reaches_target 1 (fun M => M) resting_state (fun _ => 3)
                                            Identity sample_controller 0%nat 0%nat).
  unfold coeffs_dot. simpl. lra.
Defined.

(** A controller whose gain members are all zero. *)
Definition idle_controller : Controller :=
  mkController zero_gains (mkVector3 0 0 0) (mkQuaternion 0 0 0 1)
               (mkVector3 0 0 0) (mkQuaternion 0 0 0 1) (fun _ => 0).

Lemma update_without_nullspace_stiffness_witness :
  tau_nullspace (fun M => M) idle_controller resting_state Identity 0%nat = 0
  /\ tau_d (fun M => M) idle_controller resting_state (fun _ => 3) Identity 0%nat
     = tau_task idle_controller resting_state Identity 0%nat + 3.
Proof.
  apply (update_without_nullspace_stiffness (fun M => M) idle_controller resting_state
                                            (fun _ => 3) Identity 0%nat).
  reflexivity.
Defined.

End Impedance.
